(** * The topology router of the Shadow simulator (src/topology/shd-topology.c)

    A shallow embedding of the latency/reliability oracle: the virtual-IP
    attachment table, the two-level path cache, the shortest-path walk of
    [_topology_computePath], the public queries, attach and detach, and the
    load-time connectivity check.

    Conventions of the model.
    - [igraph_real_t] and [gdouble] are exact rationals ([Q]); the rounding of
      IEEE doubles is not modelled, so numeric results are stated up to [==].
    - [igraph_integer_t], [gint], [guint] and table keys are integers ([Z]);
      the conversions through [gpointer] are written out.
    - The igraph library, libc's [fopen] and the process memory are external:
      they are the fields of the class [Extern].
    - A [GMutex] is a flag; log calls append to the [log] field; the
      wall-clock counter [shortestPathTotalTime] is left out. *)

From Stdlib Require Import ZArith QArith Qround Lqa Lia List String Bool.
From stdpp Require Import gmap strings.
Import ListNotations.

Local Open Scope string_scope.
Local Open Scope Z_scope.

(** ** Scalars and conversions *)

Abbreviation igraph_integer_t := Z (only parsing).
Abbreviation igraph_real_t := Q (only parsing).
Abbreviation gdouble := Q (only parsing).
Abbreviation gpointer := Z (only parsing).
Abbreviation gboolean := bool (only parsing).

Definition IGRAPH_SUCCESS : Z := 0.
Definition NULL : gpointer := 0.

(** [guint] and [gint] are 32 bits wide. *)
Definition guint_wrap (z : Z) : Z := z mod 2 ^ 32.
Definition gint_wrap (z : Z) : Z := (z + 2 ^ 31) mod 2 ^ 32 - 2 ^ 31.

(** glib's casts between integers and pointers (64-bit pointers): the
    integer is widened, and read back by truncation to 32 bits. *)
Definition GUINT_TO_POINTER (u : Z) : gpointer := guint_wrap u.
Definition GINT_TO_POINTER (i : Z) : gpointer := gint_wrap i.
Definition GPOINTER_TO_INT (p : gpointer) : Z := gint_wrap p.
Definition GPOINTER_TO_UINT (p : gpointer) : Z := guint_wrap p.

(** C's [round]: to the nearest integer, halfway cases away from zero. *)
Definition round (x : gdouble) : Z :=
  if Qle_bool 0 x then Qfloor (x + (1 # 2))%Q else - Qfloor (- x + (1 # 2))%Q.

(** The cast [(guint64) x] of a double truncates toward zero. *)
Definition guint64_of_double (x : gdouble) : Z :=
  Z.quot (Qnum x) (Z.pos (Qden x)).

Definition Qlt_bool (x y : Q) : bool := negb (Qle_bool y x).

(** [g_strstr_len (haystack, -1, needle)] as a test: does [needle] occur. *)
Fixpoint g_strstr_len (haystack needle : string) : bool :=
  if String.prefix needle haystack then true
  else match haystack with
       | EmptyString => false
       | String _ rest => g_strstr_len rest needle
       end.

(** ** Values owned by other files of the repository *)

(** Modelled from the spec: [Address] (shd-address.c is not among the
    sources) is a value type with a stable 32-bit [ShadowID] and a 32-bit
    virtual IPv4; the accessors are the ones shd-topology.c calls. *)
Record Address := {
  address_getID : Z;
  address_toNetworkIP : Z;
  address_toHostIPString : string
}.

(** Modelled from the spec: [Path] (shd-path.c is not among the sources) is
    an immutable record of a latency and a reliability, built once by
    [path_new] and read by the two getters. *)
Record Path := path_new {
  path_getLatency : gdouble;
  path_getReliability : gdouble
}.

(** ** Logging *)

Inductive LogLevel := LogCritical | LogWarning | LogMessage | LogInfo | LogDebug.

Definition LogEntry : Type := LogLevel * string.

(** ** The external collaborators *)

(** Every igraph entry point returns its result code first; values written
    through out-parameters follow. *)
Class Extern := {
  igraph_t : Type;
  FILE : Type;
  (* the zero-filled graph handle inside a [g_new0]'d Topology *)
  igraph_zeroed : igraph_t;
  fopen : string -> option FILE;
  igraph_read_graph_graphml : FILE -> Z * igraph_t;
  igraph_is_connected : igraph_t -> Z * bool;
  igraph_clusters : igraph_t -> Z * igraph_integer_t;
  (* code, and the names of the graph, vertex and edge attributes *)
  igraph_cattribute_list : igraph_t -> Z * (list string * list string * list string);
  igraph_vcount : igraph_t -> igraph_integer_t;
  igraph_ecount : igraph_t -> igraph_integer_t;
  (* [igraph_vit_create] over [igraph_vss_all]: code and the vertices the
     iterator yields *)
  igraph_vit_create : igraph_t -> Z * list igraph_integer_t;
  (* [igraph_eit_create] over [igraph_ess_all]: code and the edges yielded *)
  igraph_eit_create : igraph_t -> Z * list igraph_integer_t;
  igraph_edge : igraph_t -> igraph_integer_t -> Z * (igraph_integer_t * igraph_integer_t);
  (* [EANV (graph, name, vector)]: code and the attribute of every edge *)
  EANV : igraph_t -> string -> Z * list igraph_real_t;
  VAN : igraph_t -> string -> igraph_integer_t -> igraph_real_t;
  VAS : igraph_t -> string -> igraph_integer_t -> string;
  EAN : igraph_t -> string -> igraph_integer_t -> igraph_real_t;
  igraph_vector_init : Z -> Z;
  igraph_vs_1 : igraph_integer_t -> Z;
  igraph_vector_ptr_init : Z -> Z;
  (* graph, source vertex, the one destination vertex, weights, IGRAPH_OUT:
     code and the vertices of the path written to the result vector *)
  igraph_get_shortest_paths_dijkstra :
    igraph_t -> igraph_integer_t -> igraph_integer_t ->
    option (list igraph_real_t) -> Z * list igraph_integer_t;
  (* graph, from, to, directed = TRUE, error = TRUE: code and edge id *)
  igraph_get_eid :
    igraph_t -> igraph_integer_t -> igraph_integer_t -> Z * igraph_integer_t;
  (* reading an [igraph_integer_t] through a pointer; [None] when the
     address is not readable *)
  memory_load : gpointer -> option igraph_integer_t
}.

(** Modelled from the spec: [utility_assert] (shd-utility.h is not among the
    sources) is an assertion, invariant violations being assertion failures:
    the call ends there when the condition is false.  [Outcome] tells how a
    call that contains assertions and a pointer read ends. *)
Inductive Outcome (A : Type) :=
  | Returns (a : A)
  | AssertionFailure (expr : string)
  | InvalidRead (p : gpointer).

Arguments Returns {A} a.
Arguments AssertionFailure {A} expr.
Arguments InvalidRead {A} p.

(** ** The Topology object *)

Section Topology.

Context {ext : Extern}.

Record Topology := mkTopology {
  graphPath : string;
  (* GMutex: true while held *)
  graphLock : bool;
  graph : igraph_t;
  edgeWeights : option (list igraph_real_t);
  (* virtualIP->vertexIndex (stored as pointer) *)
  virtualIP : gmap Z gpointer;
  (* fromAddress->toAddress->Path*; NULL until the first store *)
  pathCache : option (gmap Z (gmap Z Path));
  clusterCount : igraph_integer_t;
  vertexCount : igraph_integer_t;
  edgeCount : igraph_integer_t;
  isConnected : bool;
  log : list LogEntry
}.

Definition set_graphLock (b : bool) (top : Topology) : Topology :=
  mkTopology (graphPath top) b (graph top) (edgeWeights top) (virtualIP top)
    (pathCache top) (clusterCount top) (vertexCount top) (edgeCount top)
    (isConnected top) (log top).

Definition set_graph (g : igraph_t) (top : Topology) : Topology :=
  mkTopology (graphPath top) (graphLock top) g (edgeWeights top) (virtualIP top)
    (pathCache top) (clusterCount top) (vertexCount top) (edgeCount top)
    (isConnected top) (log top).

Definition set_edgeWeights (w : option (list igraph_real_t)) (top : Topology) : Topology :=
  mkTopology (graphPath top) (graphLock top) (graph top) w (virtualIP top)
    (pathCache top) (clusterCount top) (vertexCount top) (edgeCount top)
    (isConnected top) (log top).

Definition set_virtualIP (m : gmap Z gpointer) (top : Topology) : Topology :=
  mkTopology (graphPath top) (graphLock top) (graph top) (edgeWeights top) m
    (pathCache top) (clusterCount top) (vertexCount top) (edgeCount top)
    (isConnected top) (log top).

Definition set_pathCache (c : option (gmap Z (gmap Z Path))) (top : Topology) : Topology :=
  mkTopology (graphPath top) (graphLock top) (graph top) (edgeWeights top)
    (virtualIP top) c (clusterCount top) (vertexCount top) (edgeCount top)
    (isConnected top) (log top).

Definition set_clusterCount (n : igraph_integer_t) (top : Topology) : Topology :=
  mkTopology (graphPath top) (graphLock top) (graph top) (edgeWeights top)
    (virtualIP top) (pathCache top) n (vertexCount top) (edgeCount top)
    (isConnected top) (log top).

Definition set_vertexCount (n : igraph_integer_t) (top : Topology) : Topology :=
  mkTopology (graphPath top) (graphLock top) (graph top) (edgeWeights top)
    (virtualIP top) (pathCache top) (clusterCount top) n (edgeCount top)
    (isConnected top) (log top).

Definition set_edgeCount (n : igraph_integer_t) (top : Topology) : Topology :=
  mkTopology (graphPath top) (graphLock top) (graph top) (edgeWeights top)
    (virtualIP top) (pathCache top) (clusterCount top) (vertexCount top) n
    (isConnected top) (log top).

Definition set_isConnected (b : bool) (top : Topology) : Topology :=
  mkTopology (graphPath top) (graphLock top) (graph top) (edgeWeights top)
    (virtualIP top) (pathCache top) (clusterCount top) (vertexCount top)
    (edgeCount top) b (log top).

Definition add_log (lvl : LogLevel) (msg : string) (top : Topology) : Topology :=
  mkTopology (graphPath top) (graphLock top) (graph top) (edgeWeights top)
    (virtualIP top) (pathCache top) (clusterCount top) (vertexCount top)
    (edgeCount top) (isConnected top) (log top ++ [(lvl, msg)]).

Definition critical := add_log LogCritical.
Definition warning := add_log LogWarning.
Definition message := add_log LogMessage.
Definition info := add_log LogInfo.
Definition debug := add_log LogDebug.

Definition g_mutex_lock := set_graphLock true.
Definition g_mutex_unlock := set_graphLock false.

(** ** The path cache *)

Definition _topology_getPathFromCache (top : Topology) (source destination : Address)
  : option Path :=
  match pathCache top with
  | Some cache =>
      (* look for the source first level cache *)
      let srcID := address_getID source in
      match cache !! GUINT_TO_POINTER srcID with
      | Some sourceCache =>
          (* check for the path to destination in source cache *)
          let dstID := address_getID destination in
          sourceCache !! GUINT_TO_POINTER dstID
      | None => None
      end
  | None => None
  end.

(** The second-level table is mutated in place: the first-level entry keeps
    pointing at it, so the store shows as an update of that entry. *)
Definition _topology_storePathInCache (top : Topology) (source destination : Address)
    (path : Path) : Topology :=
  let srcID := address_getID source in
  let dstID := address_getID destination in
  (* create latency cache on the fly *)
  let cache := match pathCache top with Some c => c | None => ∅ end in
  let sourceCache :=
    match cache !! GUINT_TO_POINTER srcID with
    | Some sc => sc
    | None => ∅
    end in
  set_pathCache
    (Some (<[GUINT_TO_POINTER srcID := <[GUINT_TO_POINTER dstID := path]> sourceCache]> cache))
    top.

Definition _topology_clearCache (top : Topology) : Topology :=
  message "path cache cleared, spent %f seconds computing shortest paths"
    (set_pathCache None top).

(** ** Loading and validating the graph *)

Definition _topology_loadGraph (top : Topology) : gboolean * Topology :=
  (* get the file *)
  match fopen (graphPath top) with
  | None =>
      (false, critical "fopen returned NULL, problem opening graph file path '%s'" top)
  | Some graphFile =>
      let top := info "reading graphml topology graph at '%s'" top in
      let '(result, g) := igraph_read_graph_graphml graphFile in
      let top := set_graph g top in
      if negb (result =? IGRAPH_SUCCESS) then
        (false, critical "igraph_read_graph_graphml return non-success code %i" top)
      else
        (true, info "successfully read graphml topology graph at '%s'" top)
  end.

Definition debug_names (fmt : string) (names : list string) (top : Topology) : Topology :=
  fold_left (fun top _ => debug fmt top) names top.

Definition _topology_checkGraphProperties (top : Topology) : gboolean * Topology :=
  let top := info "checking graph properties..." top in
  (* we must be able to send packets in both directions, so we want IGRAPH_STRONG *)
  let '(result, connected) := igraph_is_connected (graph top) in
  let top := set_isConnected connected top in
  if negb (result =? IGRAPH_SUCCESS) then
    (false, critical "igraph_is_connected return non-success code %i" top)
  else
  let '(result, count) := igraph_clusters (graph top) in
  let top := set_clusterCount count top in
  if negb (result =? IGRAPH_SUCCESS) then
    (false, critical "igraph_clusters return non-success code %i" top)
  else
  (* it must be connected *)
  if negb (isConnected top) || (1 <? clusterCount top) then
    (false, critical "topology must be but is not strongly connected" top)
  else
  let top := info "graph is %s with %u %s" top in
  let top := info "checking graph attributes..." top in
  (* now check list of all attributes *)
  let '(result, (gnames, vnames, enames)) := igraph_cattribute_list (graph top) in
  if negb (result =? IGRAPH_SUCCESS) then
    (false, critical "igraph_cattribute_list return non-success code %i" top)
  else
  let top := debug_names "found graph attribute '%s'" gnames top in
  let top := debug_names "found vertex attribute '%s'" vnames top in
  let top := debug_names "found edge attribute '%s'" enames top in
  (true, info "successfully verified graph attributes" top).

(** A notify hook receives the topology, an index and the user data, and
    may change the last two. *)
Definition NotifyFunc (U : Type) : Type :=
  Topology -> igraph_integer_t -> U -> Topology * U.

Definition iterate_hook {U : Type} (hook : NotifyFunc U) (indices : list igraph_integer_t)
    (top : Topology) (userData : U) : Topology * U :=
  fold_left (fun st index => hook (fst st) index (snd st)) indices (top, userData).

Definition _topology_checkGraphVerticesHelperHook : NotifyFunc unit :=
  fun top vertexIndex userData =>
    let idStr := VAS (graph top) "id" vertexIndex in
    if g_strstr_len idStr "poi" then
      (debug "found vertex %li (%s), type=%s ip=%s geocode=%s bandwidthup=%f bandwidthdown=%f packetloss=%f" top,
       userData)
    else
      (debug "found vertex %li (%s), type=%s" top, userData).

Definition _topology_iterateAllVertices {U : Type} (top : Topology) (hook : NotifyFunc U)
    (userData : U) : igraph_integer_t * Topology * U :=
  (* we will iterate through the vertices *)
  let '(result, vertices) := igraph_vit_create (graph top) in
  if negb (result =? IGRAPH_SUCCESS) then
    (-1, critical "igraph_vit_create return non-success code %i" top, userData)
  else
    (* count the vertices as we iterate *)
    let '(top, userData) := iterate_hook hook vertices top userData in
    (Z.of_nat (length vertices), top, userData).

Definition _topology_checkGraphVertices (top : Topology) : gboolean * Topology :=
  let top := info "checking graph vertices..." top in
  let '(count, top, _) :=
    _topology_iterateAllVertices top _topology_checkGraphVerticesHelperHook tt in
  if count <? 0 then
    (* there was some kind of error *)
    (false, top)
  else
    let top := set_vertexCount (igraph_vcount (graph top)) top in
    let top :=
      if negb (vertexCount top =? count)
      then warning "igraph_vcount %f does not match iterator count %f" top
      else top in
    (true, info "%u graph vertices ok" top).

Definition _topology_checkGraphEdgesHelperHook : NotifyFunc unit :=
  fun top edgeIndex userData =>
    let '(result, _) := igraph_edge (graph top) edgeIndex in
    if negb (result =? IGRAPH_SUCCESS) then
      (critical "igraph_edge return non-success code %i" top, userData)
    else
      (debug "found edge %li from vertex %li (%s) to vertex %li (%s) latency=%s jitter=%s packetloss=%s" top,
       userData).

Definition _topology_iterateAllEdges {U : Type} (top : Topology) (hook : NotifyFunc U)
    (userData : U) : igraph_integer_t * Topology * U :=
  (* we will iterate through the edges *)
  let '(result, edges) := igraph_eit_create (graph top) in
  if negb (result =? IGRAPH_SUCCESS) then
    (-1, critical "igraph_eit_create return non-success code %i" top, userData)
  else
    (* count the edges as we iterate *)
    let '(top, userData) := iterate_hook hook edges top userData in
    (Z.of_nat (length edges), top, userData).

Definition _topology_checkGraphEdges (top : Topology) : gboolean * Topology :=
  let top := info "checking graph edges..." top in
  let '(count, top, _) :=
    _topology_iterateAllEdges top _topology_checkGraphEdgesHelperHook tt in
  if count <? 0 then
    (* there was some kind of error *)
    (false, top)
  else
    let top := set_edgeCount (igraph_ecount (graph top)) top in
    let top :=
      if negb (edgeCount top =? count)
      then warning "igraph_vcount %f does not match iterator count %f" top
      else top in
    (true, info "%u graph edges ok" top).

(** The three checks are joined by a short-circuit [||] of their negations. *)
Definition _topology_checkGraph (top : Topology) : gboolean * Topology :=
  let '(ok, top) := _topology_checkGraphProperties top in
  if negb ok then (false, top) else
  let '(ok, top) := _topology_checkGraphVertices top in
  if negb ok then (false, top) else
  let '(ok, top) := _topology_checkGraphEdges top in
  if negb ok then (false, top) else
  (true, message "successfully parsed graphml at '%s' and validated topology: graph is %s with %u %s, %u %s, and %u %s" top).

Definition _topology_extractEdgeWeights (top : Topology) : gboolean * Topology :=
  let top := g_mutex_lock top in
  (* create new or clear existing edge weights; now we have fresh memory *)
  let top := set_edgeWeights (Some []) top in
  let result := igraph_vector_init 0 in
  if negb (result =? IGRAPH_SUCCESS) then
    let top := g_mutex_unlock top in
    (false, critical "igraph_vector_init return non-success code %i" top)
  else
  (* use the 'latency' edge attribute as the edge weight *)
  let '(result, weights) := EANV (graph top) "latency" in
  let top := set_edgeWeights (Some weights) top in
  let top := g_mutex_unlock top in
  if negb (result =? IGRAPH_SUCCESS) then
    (false, critical "igraph_cattribute_EANV return non-success code %i" top)
  else
    (true, top).

(** ** Construction and teardown *)

(** [topology_free] ends with [g_free (top)]: of the object only the log
    lines it wrote remain. *)
Definition topology_free (top : Topology) : list LogEntry :=
  (* clear the virtual ip table *)
  let top := set_virtualIP ∅ top in
  (* this functions grabs and releases the pathCache write lock *)
  let top := _topology_clearCache top in
  (* clear the graph *)
  let top := g_mutex_lock top in
  let top := set_edgeWeights None top in
  let top := g_mutex_unlock top in
  log top.

(** What [topology_new] hands back: the object, or NULL; in the second case
    [freed] is the log left by the [topology_free] that preceded it. *)
Inductive NewResult :=
  | NewTopology (top : Topology)
  | NewNULL (freed : list LogEntry).

Definition topology_g_new0 (path : string) : Topology :=
  mkTopology path false igraph_zeroed None ∅ None 0 0 0 false [].

Definition topology_new (path : string) : NewResult :=
  let top := topology_g_new0 path in
  (* first read in the graph and make sure its formed correctly,
     then setup our edge weights for shortest path *)
  let '(ok, top) := _topology_loadGraph top in
  if negb ok then NewNULL (topology_free top) else
  let '(ok, top) := _topology_checkGraph top in
  if negb ok then NewNULL (topology_free top) else
  let '(ok, top) := _topology_extractEdgeWeights top in
  if negb ok then NewNULL (topology_free top) else
  NewTopology top.

(** ** Shortest-path queries *)

Definition _topology_getConnectedVertexIndex (top : Topology) (address : Address)
  : igraph_integer_t * Topology :=
  (* find the vertex where this virtual ip was attached *)
  let ip := address_toNetworkIP address in
  match virtualIP top !! GUINT_TO_POINTER ip with
  | None =>
      (-1, warning "address %s is not connected to the topology" top)
  | Some vertexIndexPtr =>
      (GPOINTER_TO_INT vertexIndexPtr, top)
  end.

(** The [for] loop over the vertices after the first: [inl] carries the
    code of a failed [igraph_get_eid], [inr] the two accumulators. *)
Fixpoint path_loop (g : igraph_t) (fromVertexIndex : igraph_integer_t)
    (rest : list igraph_integer_t) (totalLatency totalReliability : igraph_real_t)
  : Z + igraph_real_t * igraph_real_t :=
  match rest with
  | [] => inr (totalLatency, totalReliability)
  | toVertexIndex :: rest' =>
      (* get the edge *)
      let '(result, edgeIndex) := igraph_get_eid g fromVertexIndex toVertexIndex in
      if negb (result =? IGRAPH_SUCCESS) then inl result
      else
        let edgeLatency := EAN g "latency" edgeIndex in
        let totalLatency := (totalLatency + edgeLatency)%Q in
        let edgeReliability := (1 - EAN g "packetloss" edgeIndex)%Q in
        let totalReliability := (totalReliability * edgeReliability)%Q in
        (* update for next edge *)
        path_loop g toVertexIndex rest' totalLatency totalReliability
  end.

Definition _topology_computePath (top : Topology) (srcAddress dstAddress : Address)
  : option Path * Topology :=
  let '(srcVertexIndex, top) := _topology_getConnectedVertexIndex top srcAddress in
  let '(dstVertexIndex, top) := _topology_getConnectedVertexIndex top dstAddress in
  if (srcVertexIndex <? 0) || (dstVertexIndex <? 0) then
    (* not connected to a vertex *)
    (None, top)
  else
  (* setup the destination as a vertex selector with one possible vertex *)
  let result := igraph_vs_1 dstVertexIndex in
  if negb (result =? IGRAPH_SUCCESS) then
    (None, critical "igraph_vs_1 return non-success code %i" top)
  else
  (* initialize our result vector where the 1 resulting path will be stored *)
  let result := igraph_vector_ptr_init 1 in
  if negb (result =? IGRAPH_SUCCESS) then
    (None, critical "igraph_vector_ptr_init return non-success code %i" top)
  else
  (* initialize our 1 result element to hold the path vertices *)
  let result := igraph_vector_init 0 in
  if negb (result =? IGRAPH_SUCCESS) then
    (None, critical "igraph_vector_init return non-success code %i" top)
  else
  let top := g_mutex_lock top in
  let top := debug "computing shortest path between vertex %li (%s) and vertex %li (%s)" top in
  (* run dijkstra's shortest path algorithm *)
  let '(result, resultPathVertices) :=
    igraph_get_shortest_paths_dijkstra (graph top) srcVertexIndex dstVertexIndex
      (edgeWeights top) in
  if negb (result =? IGRAPH_SUCCESS) then
    let top := g_mutex_unlock top in
    (None, critical "igraph_get_shortest_paths_dijkstra return non-success code %i" top)
  else
  (* now get edge latencies and loss rates from the list of vertices *)
  let totalLatency : igraph_real_t := 0%Q in
  let totalReliability : igraph_real_t := 1%Q in
  (* reliability for the src and dst vertices *)
  let totalReliability :=
    (totalReliability * (1 - VAN (graph top) "packetloss" srcVertexIndex))%Q in
  let totalReliability :=
    (totalReliability * (1 - VAN (graph top) "packetloss" dstVertexIndex))%Q in
  (* now get latency and reliability from each edge in the path *)
  let nVertices := Z.of_nat (length resultPathVertices) in
  (* the first vertex is our starting point
     igraph_vector_size can be 0 for paths to ourself *)
  let fromVertexIndex := if 0 <? nVertices then nth 0 resultPathVertices 0 else 0 in
  let walked :=
    if nVertices <? 2 then
      (* we have no edges, src and dst are in the same vertex, or path to self *)
      inr (1%Q, totalReliability)
    else
      (* iterate the edges in the path and sum the latencies *)
      path_loop (graph top) fromVertexIndex (tl resultPathVertices)
        totalLatency totalReliability in
  match walked with
  | inl _ =>
      let top := g_mutex_unlock top in
      (None, warning "igraph_get_eid return non-success code %i" top)
  | inr (totalLatency, totalReliability) =>
      let top := g_mutex_unlock top in
      let top := debug "shortest path %s-->%s is %f ms with %f loss, path: %s" top in
      (* success *)
      (Some (path_new totalLatency totalReliability), top)
  end.

(** The out-parameters [latency] and [reliability] are cells of the caller:
    [None] is a NULL pointer, [Some v] a cell holding [v]; the cells come
    back as the call leaves them. *)
Definition _topology_getPathEntry (top : Topology) (srcAddress dstAddress : Address)
    (latency reliability : option gdouble)
  : gboolean * option gdouble * option gdouble * Topology :=
  (* check for a cache hit *)
  let '(path, top) :=
    match _topology_getPathFromCache top srcAddress dstAddress with
    | Some path => (Some path, top)
    | None =>
        (* cache miss, compute the path using shortest latency path from src to dst *)
        let '(path, top) := _topology_computePath top srcAddress dstAddress in
        match path with
        | Some p =>
            (* cache the latency and reliability we just computed *)
            (Some p, _topology_storePathInCache top srcAddress dstAddress p)
        | None => (None, top)
        end
    end in
  match path with
  | Some p =>
      (true,
       match latency with Some _ => Some (path_getLatency p) | None => None end,
       match reliability with Some _ => Some (path_getReliability p) | None => None end,
       top)
  | None =>
      (* some error computing or caching path *)
      (false, latency, reliability, top)
  end.

Definition cell_value (cell : option gdouble) : gdouble :=
  match cell with Some v => v | None => 0%Q end.

Definition topology_getLatency (top : Topology) (srcAddress dstAddress : Address)
  : gdouble * Topology :=
  let latency := Some 0%Q in
  let '(ok, latency, _, top) :=
    _topology_getPathEntry top srcAddress dstAddress latency None in
  if ok then (cell_value latency, top) else ((-1)%Q, top).

Definition topology_getReliability (top : Topology) (srcAddress dstAddress : Address)
  : gdouble * Topology :=
  let reliability := Some 0%Q in
  let '(ok, _, reliability, top) :=
    _topology_getPathEntry top srcAddress dstAddress None reliability in
  if ok then (cell_value reliability, top) else ((-1)%Q, top).

Definition topology_isRoutable (top : Topology) (srcAddress dstAddress : Address)
  : gboolean * Topology :=
  let '(latency, top) := topology_getLatency top srcAddress dstAddress in
  (Qlt_bool (-1) latency, top).

(** The [while] loop of [_topology_getLongestPrefixMatch] over the items
    of the list, with its two accumulators; [in_addr_t] is unsigned. *)
Fixpoint longest_prefix_loop (nextIPItem : list gpointer) (ip bestMatch bestIP : Z) : Z :=
  match nextIPItem with
  | [] => bestIP
  | data :: next =>
      let nextIP := GPOINTER_TO_UINT data in
      let matched := Z.land nextIP ip in
      if bestMatch <? matched
      then longest_prefix_loop next ip matched nextIP
      else longest_prefix_loop next ip bestMatch bestIP
  end.

(** A NULL [GList*] is the empty list. *)
Definition _topology_getLongestPrefixMatch (ipSet : list gpointer) (ip : Z) : Outcome Z :=
  match ipSet with
  | [] => AssertionFailure "ipSet"
  | _ :: _ => Returns (longest_prefix_loop ipSet ip 0 0)
  end.

(** ** Attach and detach *)

Record ConnectAssist := mkConnectAssist {
  candidates : list gpointer;
  typeHint : option string;
  geocodeHint : option string;
  ipHint : option string
}.

Definition g_queue_push_tail (q : list gpointer) (data : gpointer) : list gpointer :=
  q ++ [data].

(** [g_queue_pop_head] returns NULL on an empty queue. *)
Definition g_queue_pop_head (q : list gpointer) : gpointer * list gpointer :=
  match q with
  | [] => (NULL, [])
  | data :: q' => (data, q')
  end.

Definition _topology_connectHelperHook : NotifyFunc ConnectAssist :=
  fun top vertexIndex assist =>
    let idStr := VAS (graph top) "id" vertexIndex in
    if g_strstr_len idStr "poi" then
      (* XXX FIXME fix this to properly filter! *)
      (top,
       mkConnectAssist
         (g_queue_push_tail (candidates assist) (GINT_TO_POINTER vertexIndex))
         (typeHint assist) (geocodeHint assist) (ipHint assist))
    else (top, assist).

(** [while (count > 0) { vertexIndexPtr = g_queue_pop_head (...); count--; }] *)
Fixpoint pop_loop (count : nat) (q : list gpointer) (vertexIndexPtr : gpointer)
  : gpointer * list gpointer :=
  match count with
  | O => (vertexIndexPtr, q)
  | S count' =>
      let '(p, q') := g_queue_pop_head q in
      pop_loop count' q' p
  end.

(** [randomDouble] is what [random_nextDouble (randomSourcePool)] yields;
    [bwDownOut] and [bwUpOut] tell whether the out-pointers are non-NULL, and
    the result carries the values written through them. *)
Definition topology_connect (top : Topology) (address : Address) (randomDouble : gdouble)
    (ipHint clusterHint typeHint : option string) (bwDownOut bwUpOut : bool)
  : Outcome (Topology * option Z * option Z) :=
  let nodeIP := address_toNetworkIP address in
  let vertexIndexPtr : gpointer := NULL in
  let assist := mkConnectAssist [] typeHint clusterHint ipHint in
  let top := g_mutex_lock top in
  let '(_, top, assist) :=
    _topology_iterateAllVertices top _topology_connectHelperHook assist in
  let top := g_mutex_unlock top in
  let numCandidates := guint_wrap (Z.of_nat (length (candidates assist))) in
  if negb (0 <? numCandidates) then AssertionFailure "numCandidates > 0" else
  (* if more than one candidate, grab a random one *)
  let vertexIndexPtr :=
    if 1 <? numCandidates then
      let count := guint_wrap (round (inject_Z numCandidates * randomDouble)%Q) in
      fst (pop_loop (Z.to_nat count) (candidates assist) vertexIndexPtr)
    else
      fst (g_queue_pop_head (candidates assist)) in
  (* make sure the vertex is legitimate *)
  if vertexIndexPtr =? NULL then AssertionFailure "vertexIndexPtr" else
  match memory_load vertexIndexPtr with
  | None => InvalidRead vertexIndexPtr
  | Some vertexIndex =>
      if negb (-1 <? vertexIndex) then
        AssertionFailure "vertexIndex > (igraph_integer_t) -1"
      else
      (* attach it, i.e. store the mapping so we can route later *)
      let top :=
        set_virtualIP
          (<[GUINT_TO_POINTER nodeIP := GINT_TO_POINTER vertexIndex]> (virtualIP top))
          top in
      let top := g_mutex_lock top in
      (* give them the default cluster bandwidths if they asked *)
      let bwUp :=
        if bwUpOut
        then Some (guint64_of_double (VAN (graph top) "bandwidthup" vertexIndex))
        else None in
      let bwDown :=
        if bwDownOut
        then Some (guint64_of_double (VAN (graph top) "bandwidthdown" vertexIndex))
        else None in
      let top := g_mutex_unlock top in
      let top := info "connected address '%s' to point of interest '%s' (%s, %s, %s)" top in
      Returns (top, bwDown, bwUp)
  end.

Definition topology_disconnect (top : Topology) (address : Address) : Topology :=
  let ip := address_toNetworkIP address in
  set_virtualIP (delete (GUINT_TO_POINTER ip) (virtualIP top)) top.

End Topology.

(** ** The public interface as a machine *)

Inductive Call :=
  | CallConnect (address : Address) (randomDouble : gdouble)
      (ipHint clusterHint typeHint : option string) (bwDownOut bwUpOut : bool)
  | CallDisconnect (address : Address)
  | CallGetLatency (srcAddress dstAddress : Address)
  | CallGetReliability (srcAddress dstAddress : Address)
  | CallIsRoutable (srcAddress dstAddress : Address).

Section Machine.

Context {ext : Extern}.

Definition call (top : Topology) (c : Call) : Outcome Topology :=
  match c with
  | CallConnect address randomDouble ipHint clusterHint typeHint bwDownOut bwUpOut =>
      match topology_connect top address randomDouble ipHint clusterHint typeHint
              bwDownOut bwUpOut with
      | Returns (top', _, _) => Returns top'
      | AssertionFailure expr => AssertionFailure expr
      | InvalidRead p => InvalidRead p
      end
  | CallDisconnect address => Returns (topology_disconnect top address)
  | CallGetLatency src dst => Returns (snd (topology_getLatency top src dst))
  | CallGetReliability src dst => Returns (snd (topology_getReliability top src dst))
  | CallIsRoutable src dst => Returns (snd (topology_isRoutable top src dst))
  end.

Fixpoint calls (top : Topology) (cs : list Call) : Outcome Topology :=
  match cs with
  | [] => Returns top
  | c :: cs' =>
      match call top c with
      | Returns top' => calls top' cs'
      | AssertionFailure expr => AssertionFailure expr
      | InvalidRead p => InvalidRead p
      end
  end.

(** ** What the specification says a path is worth *)

(** The edges of a vertex sequence, as edge resolution names them. *)
Fixpoint resolve_edges (g : igraph_t) (from : igraph_integer_t)
    (rest : list igraph_integer_t) : option (list igraph_integer_t) :=
  match rest with
  | [] => Some []
  | to :: rest' =>
      let '(result, e) := igraph_get_eid g from to in
      if result =? IGRAPH_SUCCESS then
        match resolve_edges g to rest' with
        | Some es => Some (e :: es)
        | None => None
        end
      else None
  end.

Definition spec_path_edges (g : igraph_t) (vs : list igraph_integer_t)
  : option (list igraph_integer_t) :=
  match vs with
  | [] => Some []
  | v :: rest => resolve_edges g v rest
  end.

(** The sum of the latency attribute of the edges. *)
Definition spec_latency (g : igraph_t) (es : list igraph_integer_t) : Q :=
  fold_right (fun e acc => (EAN g "latency" e + acc)%Q) 0%Q es.

(** The product over the edges of (1 - packetloss). *)
Definition spec_edge_reliability (g : igraph_t) (es : list igraph_integer_t) : Q :=
  fold_right (fun e acc => ((1 - EAN g "packetloss" e) * acc)%Q) 1%Q es.

(** (1 - plossSrcVertex) * prod (1 - plossEdge) * (1 - plossDstVertex) *)
Definition spec_reliability (g : igraph_t) (srcVertex dstVertex : igraph_integer_t)
    (es : list igraph_integer_t) : Q :=
  ((1 - VAN g "packetloss" srcVertex) * spec_edge_reliability g es
   * (1 - VAN g "packetloss" dstVertex))%Q.

(** ** Predicates on states *)

(** [address] is in the virtual-IP table, at vertex [v]. *)
Definition attached_at (top : Topology) (address : Address) (v : igraph_integer_t) : Prop :=
  exists p : gpointer,
    virtualIP top !! GUINT_TO_POINTER (address_toNetworkIP address) = Some p
    /\ GPOINTER_TO_INT p = v /\ 0 <= v.

Definition unattached (top : Topology) (address : Address) : Prop :=
  virtualIP top !! GUINT_TO_POINTER (address_toNetworkIP address) = None.

(** The graph primitives of a query from vertex [sv] to vertex [dv] all
    return IGRAPH_SUCCESS. *)
Definition primitives_succeed (top : Topology) (sv dv : igraph_integer_t) : Prop :=
  igraph_vs_1 dv = IGRAPH_SUCCESS
  /\ igraph_vector_ptr_init 1 = IGRAPH_SUCCESS
  /\ igraph_vector_init 0 = IGRAPH_SUCCESS
  /\ fst (igraph_get_shortest_paths_dijkstra (graph top) sv dv (edgeWeights top))
     = IGRAPH_SUCCESS
  /\ is_Some (spec_path_edges (graph top)
       (snd (igraph_get_shortest_paths_dijkstra (graph top) sv dv (edgeWeights top)))).

(** Every edge has latency > 0 and packetloss in [0,1]; every vertex has
    packetloss in [0,1]. An edge is what edge resolution can return. *)
Definition attributes_in_range (g : igraph_t) : Prop :=
  (forall u v e, igraph_get_eid g u v = (IGRAPH_SUCCESS, e) ->
     (0 < EAN g "latency" e)%Q
     /\ (0 <= EAN g "packetloss" e)%Q /\ (EAN g "packetloss" e <= 1)%Q)
  /\ (forall v, (0 <= VAN g "packetloss" v)%Q /\ (VAN g "packetloss" v <= 1)%Q).

(** The reliability accumulator after the two vertex factors. *)
Definition vertex_reliability (g : igraph_t) (sv dv : igraph_integer_t) : Q :=
  (1 * (1 - VAN g "packetloss" sv) * (1 - VAN g "packetloss" dv))%Q.

(** The walk of [_topology_computePath] over the vertices Dijkstra wrote,
    from the accumulator [R0]. *)
Definition walk (g : igraph_t) (vs : list igraph_integer_t) (R0 : Q) : Z + Q * Q :=
  if Z.of_nat (length vs) <? 2 then inr (1%Q, R0)
  else path_loop g (if 0 <? Z.of_nat (length vs) then nth 0 vs 0 else 0) (tl vs) 0%Q R0.

(** Two states agree on everything but the log and the graph lock. *)
Definition same_data (top top' : Topology) : Prop :=
  graphPath top' = graphPath top
  /\ graph top' = graph top /\ edgeWeights top' = edgeWeights top
  /\ virtualIP top' = virtualIP top /\ pathCache top' = pathCache top
  /\ clusterCount top' = clusterCount top /\ vertexCount top' = vertexCount top
  /\ edgeCount top' = edgeCount top /\ isConnected top' = isConnected top.

(** The path [_topology_getPathEntry] ends up with, and the state it leaves. *)
Definition path_entry (top : Topology) (src dst : Address) : option Path * Topology :=
  match _topology_getPathFromCache top src dst with
  | Some p => (Some p, top)
  | None =>
      match _topology_computePath top src dst with
      | (Some p, top') => (Some p, _topology_storePathInCache top' src dst p)
      | (None, top') => (None, top')
      end
  end.

(** The key under which the cache files a pair of addresses. *)
Definition cache_key (src dst : Address) : Z * Z :=
  (GUINT_TO_POINTER (address_getID src), GUINT_TO_POINTER (address_getID dst)).

(** Latency >= 0 and reliability in [0,1]. *)
Definition in_range (p : Path) : Prop :=
  (0 <= path_getLatency p)%Q
  /\ (0 <= path_getReliability p)%Q /\ (path_getReliability p <= 1)%Q.

(** [q] is a path [_topology_computePath] returns on the graph [g]. *)
Definition computed_on (g : igraph_t) (q : Path) : Prop :=
  exists top src dst top',
    graph top = g /\ _topology_computePath top src dst = (Some q, top').

(** The queue of candidates [topology_connect] draws from. *)
Definition connect_candidates (top : Topology) (ipHint clusterHint typeHint : option string)
  : list gpointer :=
  candidates
    (snd (_topology_iterateAllVertices (g_mutex_lock top) _topology_connectHelperHook
            (mkConnectAssist [] typeHint clusterHint ipHint))).

(** The state [topology_connect] leaves when it returns after reading the
    vertex index [v]: the mapping is recorded and one line is logged. *)
Definition attach_at (top : Topology) (address : Address) (v : igraph_integer_t) : Topology :=
  info "connected address '%s' to point of interest '%s' (%s, %s, %s)"
    (g_mutex_unlock
       (set_virtualIP
          (<[GUINT_TO_POINTER (address_toNetworkIP address) := GINT_TO_POINTER v]>
             (virtualIP top))
          top)).

(** A vertex is a point of interest when its id contains "poi". *)
Definition is_poi (g : igraph_t) (v : igraph_integer_t) : bool :=
  g_strstr_len (VAS g "id" v) "poi".

(** A projection of the state that logging does not change. *)
Definition log_blind {A : Type} (proj : Topology -> A) : Prop :=
  forall lvl msg top, proj (add_log lvl msg top) = proj top.

(** The fields set once at load time. *)
Definition static_fields (top : Topology)
  : string * igraph_t * option (list Q) * (Z * Z * Z) * bool :=
  (graphPath top, graph top, edgeWeights top,
   (clusterCount top, vertexCount top, edgeCount top), isConnected top).

(** The two tables of a topology. *)
Definition tables (top : Topology) : gmap Z gpointer * option (gmap Z (gmap Z Path)) :=
  (virtualIP top, pathCache top).

(** Every path in the cache satisfies [P]. *)
Definition cache_all (P : Path -> Prop) (top : Topology) : Prop :=
  forall src dst p, _topology_getPathFromCache top src dst = Some p -> P p.

End Machine.

(** ** A small executable graph library

    An instance of [Extern] on which the model runs: graphs are lists of
    vertices and edges, shortest paths come from Bellman-Ford relaxation,
    the file system is a table from paths to graphs. *)

Module Sample.

Record vertex := mkVertex {
  v_id : string;
  v_type : string;
  v_bandwidthup : Q;
  v_bandwidthdown : Q;
  v_packetloss : Q
}.

Record edge := mkEdge {
  e_from : Z;
  e_to : Z;
  e_latency : Q;
  e_jitter : Q;
  e_packetloss : Q
}.

Record sgraph := mkGraph {
  vertices : list vertex;
  edges : list edge
}.

Definition IGRAPH_EINVAL : Z := 4.

Definition nth_vertex (g : sgraph) (v : Z) : option vertex :=
  if v <? 0 then None else nth_error (vertices g) (Z.to_nat v).

Definition nth_edge (g : sgraph) (e : Z) : option edge :=
  if e <? 0 then None else nth_error (edges g) (Z.to_nat e).

Definition van (g : sgraph) (name : string) (v : Z) : Q :=
  match nth_vertex g v with
  | Some x =>
      if String.eqb name "packetloss" then v_packetloss x
      else if String.eqb name "bandwidthup" then v_bandwidthup x
      else if String.eqb name "bandwidthdown" then v_bandwidthdown x
      else 0%Q
  | None => 0%Q
  end.

Definition vas (g : sgraph) (name : string) (v : Z) : string :=
  match nth_vertex g v with
  | Some x =>
      if String.eqb name "id" then v_id x
      else if String.eqb name "type" then v_type x
      else ""
  | None => ""
  end.

Definition ean (g : sgraph) (name : string) (e : Z) : Q :=
  match nth_edge g e with
  | Some x =>
      if String.eqb name "latency" then e_latency x
      else if String.eqb name "jitter" then e_jitter x
      else if String.eqb name "packetloss" then e_packetloss x
      else 0%Q
  | None => 0%Q
  end.

Definition eanv (g : sgraph) (name : string) : Z * list Q :=
  (IGRAPH_SUCCESS, map (fun i => ean g name (Z.of_nat i)) (seq 0 (length (edges g)))).

Fixpoint find_edge (es : list edge) (from to : Z) (index : Z) : option Z :=
  match es with
  | [] => None
  | e :: es' =>
      if (e_from e =? from) && (e_to e =? to) then Some index
      else find_edge es' from to (index + 1)
  end.

Definition get_eid (g : sgraph) (from to : Z) : Z * Z :=
  match find_edge (edges g) from to 0 with
  | Some e => (IGRAPH_SUCCESS, e)
  | None => (IGRAPH_EINVAL, 0)
  end.

Definition edge_ends (g : sgraph) (e : Z) : Z * (Z * Z) :=
  match nth_edge g e with
  | Some x => (IGRAPH_SUCCESS, (e_from x, e_to x))
  | None => (IGRAPH_EINVAL, (0, 0))
  end.

(** Best known distance and reversed vertex path, per vertex. *)
Definition table := list (option (Q * list Z)).

Definition relax (weight : nat -> Q) (dist : table) (ie : nat * edge) : table :=
  let '(i, e) := ie in
  match nth (Z.to_nat (e_from e)) dist None with
  | None => dist
  | Some (du, pu) =>
      let d := Qred (du + weight i) in
      let improved :=
        match nth (Z.to_nat (e_to e)) dist None with
        | Some (dv, _) => Qlt_bool d dv
        | None => true
        end in
      if improved then <[Z.to_nat (e_to e) := Some (d, e_to e :: pu)]> dist else dist
  end.

Definition numbered {A : Type} (l : list A) : list (nat * A) :=
  combine (seq 0 (length l)) l.

Fixpoint rounds (n : nat) (weight : nat -> Q) (es : list (nat * edge)) (dist : table) : table :=
  match n with
  | O => dist
  | S n' => rounds n' weight es (fold_left (relax weight) es dist)
  end.

Definition shortest (g : sgraph) (weights : option (list Q)) (from : Z) : table :=
  let n := length (vertices g) in
  let weight i :=
    match weights with
    | Some w => nth i w 0%Q
    | None => 1%Q
    end in
  let start : table := <[Z.to_nat from := Some (0%Q, [from])]> (repeat None n) in
  rounds n weight (numbered (edges g)) start.

Definition valid_vertex (g : sgraph) (v : Z) : bool :=
  (0 <=? v) && (v <? Z.of_nat (length (vertices g))).

Definition dijkstra (g : sgraph) (from to : Z) (weights : option (list Q)) : Z * list Z :=
  if valid_vertex g from && valid_vertex g to then
    match nth (Z.to_nat to) (shortest g weights from) None with
    | Some (_, p) => (IGRAPH_SUCCESS, rev p)
    | None => (IGRAPH_SUCCESS, [])
    end
  else (IGRAPH_EINVAL, []).

Definition reaches (g : sgraph) (u v : nat) : bool :=
  match nth v (shortest g None (Z.of_nat u)) None with
  | Some _ => true
  | None => false
  end.

Definition all_vertices (g : sgraph) : list nat := seq 0 (length (vertices g)).

Definition is_connected (g : sgraph) : Z * bool :=
  (IGRAPH_SUCCESS,
   forallb (fun u => forallb (fun v => reaches g u v) (all_vertices g)) (all_vertices g)).

(** A vertex opens a strong cluster when no earlier vertex shares one with it. *)
Definition clusters (g : sgraph) : Z * Z :=
  (IGRAPH_SUCCESS,
   Z.of_nat (length (filter
     (fun v => negb (existsb (fun u => reaches g u v && reaches g v u) (seq 0 v)))
     (all_vertices g)))).

Definition indices (n : nat) : list Z := map Z.of_nat (seq 0 n).

(** [files] is the file system, [mem] the readable memory. *)
Definition extern (files : string -> option sgraph) (mem : gpointer -> option Z) : Extern :=
  {| igraph_t := sgraph;
     FILE := sgraph;
     igraph_zeroed := mkGraph [] [];
     fopen := files;
     igraph_read_graph_graphml := fun f => (IGRAPH_SUCCESS, f);
     igraph_is_connected := is_connected;
     igraph_clusters := clusters;
     igraph_cattribute_list := fun _ =>
       (IGRAPH_SUCCESS,
        ([], ["id"; "type"; "bandwidthup"; "bandwidthdown"; "packetloss"],
         ["latency"; "jitter"; "packetloss"]));
     igraph_vcount := fun g => Z.of_nat (length (vertices g));
     igraph_ecount := fun g => Z.of_nat (length (edges g));
     igraph_vit_create := fun g => (IGRAPH_SUCCESS, indices (length (vertices g)));
     igraph_eit_create := fun g => (IGRAPH_SUCCESS, indices (length (edges g)));
     igraph_edge := edge_ends;
     EANV := eanv;
     VAN := van;
     VAS := vas;
     EAN := ean;
     igraph_vector_init := fun _ => IGRAPH_SUCCESS;
     igraph_vs_1 := fun _ => IGRAPH_SUCCESS;
     igraph_vector_ptr_init := fun _ => IGRAPH_SUCCESS;
     igraph_get_shortest_paths_dijkstra := dijkstra;
     igraph_get_eid := get_eid;
     memory_load := mem |}.

(** Two points of interest joined in both directions (latency 10); the
    vertices lose 0.1 and 0.2 of the packets, each edge 0.05. *)
Definition two_pois : sgraph :=
  mkGraph
    [mkVertex "poi-1" "net" 1024 2048 (1 # 10); mkVertex "poi-2" "net" 512 512 (2 # 10)]
    [mkEdge 0 1 10 0 (5 # 100); mkEdge 1 0 10 0 (5 # 100)].

(** A triangle A-B-C without the direct edges between A and C. *)
Definition triangle : sgraph :=
  mkGraph
    [mkVertex "poi-A" "net" 100 100 0; mkVertex "relay-B" "net" 0 0 0;
     mkVertex "poi-C" "net" 100 100 0]
    [mkEdge 0 1 5 0 0; mkEdge 1 2 5 0 0; mkEdge 2 1 5 0 0; mkEdge 1 0 5 0 0].

(** Two vertices with a single one-way edge: two strong clusters. *)
Definition one_way : sgraph :=
  mkGraph
    [mkVertex "poi-1" "net" 1 1 0; mkVertex "poi-2" "net" 1 1 0]
    [mkEdge 0 1 10 0 0].

(** A point of interest that drops every packet. *)
Definition lossy : sgraph :=
  mkGraph [mkVertex "poi-1" "net" 1 1 1] [].

(** A connected graph without any point of interest. *)
Definition no_poi : sgraph :=
  mkGraph [mkVertex "relay-1" "net" 0 0 0] [].

Definition files (path : string) : option sgraph :=
  if String.eqb path "two_pois.graphml" then Some two_pois
  else if String.eqb path "triangle.graphml" then Some triangle
  else if String.eqb path "one_way.graphml" then Some one_way
  else if String.eqb path "lossy.graphml" then Some lossy
  else if String.eqb path "no_poi.graphml" then Some no_poi
  else None.

(** No integer-valued pointer is readable. *)
Definition no_memory (p : gpointer) : option Z := None.

#[export] Instance sample : Extern := extern files no_memory.

Definition h1 : Address := Build_Address 1 167772161 "10.0.0.1".
Definition h2 : Address := Build_Address 2 167772162 "10.0.0.2".

(** The topology as [topology_new] returns it, [igraph_zeroed] on failure. *)
Definition loaded (path : string) : Topology :=
  match topology_new path with
  | NewTopology top => top
  | NewNULL _ => topology_g_new0 path
  end.

(** Hosts on the two-vertex graph: h1 at vertex 0, h2 at vertex 1. *)
Definition one_host : Topology := attach_at (loaded "two_pois.graphml") h1 0.
Definition two_hosts : Topology := attach_at one_host h2 1.

(** After two queries through the public interface. *)
Definition two_hosts_queried : Topology :=
  snd (topology_getReliability (snd (topology_getLatency two_hosts h1 h2)) h2 h1).

(** h2 recorded at a vertex the graph does not have: Dijkstra refuses it. *)
Definition misattached : Topology := attach_at one_host h2 7.

(** h1 on the vertex that drops every packet. *)
Definition lossy_host : Topology := attach_at (loaded "lossy.graphml") h1 0.

(** h1 queried against itself at vertex 0, then attached again at vertex 1. *)
Definition reattached : Topology :=
  attach_at (snd (topology_getReliability one_host h1 h1)) h1 1.

(** Hosts at the two ends of the triangle. *)
Definition triangle_hosts : Topology :=
  attach_at (attach_at (loaded "triangle.graphml") h1 0) h2 2.

(** A memory in which the word at every address holds that address, and
    the sample library over it: there [topology_connect] can return. *)
Definition identity_memory (p : gpointer) : option Z := Some p.

Definition readable : Extern := extern files identity_memory.

Definition loaded_readable (path : string) : @Topology readable :=
  match @topology_new readable path with
  | NewTopology top => top
  | NewNULL _ => @topology_g_new0 readable path
  end.

(** Two vertices joined by edges of latency -5: nothing validates the sign. *)
Definition negative : sgraph :=
  mkGraph
    [mkVertex "poi-1" "net" 1 1 0; mkVertex "poi-2" "net" 1 1 0]
    [mkEdge 0 1 (-5) 0 0; mkEdge 1 0 20 0 0].

(** h1 and h2 at the two ends of the negative edge. *)
Definition negative_hosts : Topology :=
  attach_at (attach_at
    (mkTopology "negative.graphml" false negative (Some [(-5)%Q; 20%Q]) ∅ None 1 2 2 true [])
    h1 0) h2 1.

(** A query for (h1, h2), then h2 detaches. *)
Definition after_detach : Topology :=
  topology_disconnect (snd (topology_getLatency two_hosts h1 h2)) h2.

End Sample.


(** * Properties *)

Section Properties.

Context {ext : Extern}.

Implicit Types (top : Topology) (a b src dst : Address) (p : Path).

(** ** Attachment lookups *)

Lemma getConnectedVertexIndex_attached top a v :
  attached_at top a v ->
  _topology_getConnectedVertexIndex top a = (v, top).
Proof.
  intros (ptr & Hlook & Hv & _). unfold _topology_getConnectedVertexIndex.
  rewrite Hlook. now rewrite Hv.
Qed.

Lemma getConnectedVertexIndex_unattached top a :
  unattached top a ->
  _topology_getConnectedVertexIndex top a
  = (-1, warning "address %s is not connected to the topology" top).
Proof.
  intros Hnone. unfold _topology_getConnectedVertexIndex, unattached in *.
  now rewrite Hnone.
Qed.

Lemma getConnectedVertexIndex_cases top a :
  (exists ptr, virtualIP top !! GUINT_TO_POINTER (address_toNetworkIP a) = Some ptr
               /\ _topology_getConnectedVertexIndex top a = (GPOINTER_TO_INT ptr, top))
  \/ (unattached top a
      /\ _topology_getConnectedVertexIndex top a
         = (-1, warning "address %s is not connected to the topology" top)).
Proof.
  unfold _topology_getConnectedVertexIndex, unattached.
  destruct (virtualIP top !! GUINT_TO_POINTER (address_toNetworkIP a)) as [ptr|];
    [left; eauto | right; auto].
Qed.

(** ** The edge loop against the specification's sums and products *)

Lemma path_loop_resolved g es : forall rest from L R,
  resolve_edges g from rest = Some es ->
  exists L' R',
    path_loop g from rest L R = inr (L', R')
    /\ (L' == L + spec_latency g es)%Q
    /\ (R' == R * spec_edge_reliability g es)%Q.
Proof.
  intros rest. revert es.
  induction rest as [|to rest IH]; intros es from L R Hres; simpl in *.
  - inversion Hres; subst. exists L, R. simpl. split; [reflexivity|]. split; ring.
  - destruct (igraph_get_eid g from to) as [result e].
    destruct (result =? IGRAPH_SUCCESS) eqn:Hrc; [|discriminate]. simpl.
    destruct (resolve_edges g to rest) as [es'|] eqn:Hrest; [|discriminate].
    inversion Hres; subst.
    destruct (IH es' to (L + EAN g "latency" e)%Q (R * (1 - EAN g "packetloss" e))%Q Hrest)
      as (L' & R' & Hloop & HL & HR).
    exists L', R'. split; [exact Hloop|]. simpl. split.
    + rewrite HL. ring.
    + rewrite HR. ring.
Qed.

Lemma path_loop_unresolved g : forall rest from L R,
  resolve_edges g from rest = None ->
  exists result, path_loop g from rest L R = inl result /\ result <> IGRAPH_SUCCESS.
Proof.
  induction rest as [|to rest IH]; intros from L R Hres; simpl in *; [discriminate|].
  destruct (igraph_get_eid g from to) as [result e].
  destruct (result =? IGRAPH_SUCCESS) eqn:Hrc; simpl.
  - destruct (resolve_edges g to rest) eqn:Hrest; [discriminate|].
    now apply IH.
  - exists result. split; [reflexivity|]. now apply Z.eqb_neq.
Qed.

(** ** [_topology_computePath] once both vertices are known *)

Lemma computePath_at top a b sv dv :
  attached_at top a sv -> attached_at top b dv ->
  igraph_vs_1 dv = IGRAPH_SUCCESS ->
  igraph_vector_ptr_init 1 = IGRAPH_SUCCESS ->
  igraph_vector_init 0 = IGRAPH_SUCCESS ->
  _topology_computePath top a b
  = let top1 :=
      debug "computing shortest path between vertex %li (%s) and vertex %li (%s)"
        (g_mutex_lock top) in
    let '(result, vs) :=
      igraph_get_shortest_paths_dijkstra (graph top) sv dv (edgeWeights top) in
    if negb (result =? IGRAPH_SUCCESS) then
      (None,
       critical "igraph_get_shortest_paths_dijkstra return non-success code %i"
         (g_mutex_unlock top1))
    else
      match walk (graph top) vs (vertex_reliability (graph top) sv dv) with
      | inl _ =>
          (None, warning "igraph_get_eid return non-success code %i" (g_mutex_unlock top1))
      | inr (L, R) =>
          (Some (path_new L R),
           debug "shortest path %s-->%s is %f ms with %f loss, path: %s"
             (g_mutex_unlock top1))
      end.
Proof.
  intros Ha Hb Hvs Hptr Hvec. unfold _topology_computePath.
  rewrite (getConnectedVertexIndex_attached top a sv Ha).
  rewrite (getConnectedVertexIndex_attached top b dv Hb).
  destruct Ha as (_ & _ & _ & Hsv), Hb as (_ & _ & _ & Hdv).
  replace (sv <? 0) with false by (symmetry; apply Z.ltb_ge; lia).
  replace (dv <? 0) with false by (symmetry; apply Z.ltb_ge; lia).
  rewrite Hvs, Hptr, Hvec. reflexivity.
Qed.

Lemma walk_resolved g vs es R0 :
  spec_path_edges g vs = Some es ->
  exists L R,
    walk g vs R0 = inr (L, R)
    /\ (R == R0 * spec_edge_reliability g es)%Q
    /\ ((length vs < 2)%nat -> L = 1%Q /\ es = [])
    /\ ((2 <= length vs)%nat -> (L == spec_latency g es)%Q).
Proof.
  intros Hes. unfold walk.
  destruct vs as [|v [|w rest]].
  - simpl in *. inversion Hes; subst. exists 1%Q, R0. simpl.
    repeat split; try ring; intros; lia.
  - simpl in *. inversion Hes; subst. exists 1%Q, R0. simpl.
    repeat split; try ring; intros; lia.
  - replace (Z.of_nat (length (v :: w :: rest)) <? 2) with false
      by (symmetry; apply Z.ltb_ge; simpl length; lia).
    replace (0 <? Z.of_nat (length (v :: w :: rest))) with true
      by (symmetry; apply Z.ltb_lt; simpl length; lia).
    change (nth 0 (v :: w :: rest) 0) with v.
    change (tl (v :: w :: rest)) with (w :: rest).
    destruct (path_loop_resolved g es (w :: rest) v 0%Q R0 Hes) as (L & R & Hloop & HL & HR).
    exists L, R. split; [exact Hloop|]. split; [exact HR|]. split.
    + simpl length. intros; lia.
    + intros _. rewrite HL. ring.
Qed.

Lemma walk_unresolved g vs R0 :
  spec_path_edges g vs = None ->
  exists result, walk g vs R0 = inl result /\ result <> IGRAPH_SUCCESS.
Proof.
  intros Hes. unfold walk.
  destruct vs as [|v [|w rest]]; try (simpl in Hes; discriminate).
  replace (Z.of_nat (length (v :: w :: rest)) <? 2) with false
    by (symmetry; apply Z.ltb_ge; simpl length; lia).
  replace (0 <? Z.of_nat (length (v :: w :: rest))) with true
    by (symmetry; apply Z.ltb_lt; simpl length; lia).
  now apply path_loop_unresolved.
Qed.

Lemma vertex_edge_reliability g sv dv es :
  (vertex_reliability g sv dv * spec_edge_reliability g es == spec_reliability g sv dv es)%Q.
Proof. unfold vertex_reliability, spec_reliability. ring. Qed.

(** A computing query on attached addresses whose primitives succeed
    returns a path worth what the specification says. *)
Lemma computePath_success top a b sv dv :
  attached_at top a sv -> attached_at top b dv ->
  primitives_succeed top sv dv ->
  let vs := snd (igraph_get_shortest_paths_dijkstra (graph top) sv dv (edgeWeights top)) in
  exists es L R top',
    spec_path_edges (graph top) vs = Some es
    /\ _topology_computePath top a b = (Some (path_new L R), top')
    /\ same_data top top' /\ graphLock top' = false
    /\ (R == spec_reliability (graph top) sv dv es)%Q
    /\ ((length vs < 2)%nat -> L = 1%Q /\ es = [])
    /\ ((2 <= length vs)%nat -> (L == spec_latency (graph top) es)%Q).
Proof.
  intros Ha Hb (Hvs & Hptr & Hvec & Hrc & [es Hes]) vs.
  rewrite (computePath_at top a b sv dv Ha Hb Hvs Hptr Hvec).
  subst vs. cbv zeta.
  destruct (igraph_get_shortest_paths_dijkstra (graph top) sv dv (edgeWeights top))
    as [result vs]. simpl in Hrc, Hes |- *. rewrite Hrc. simpl.
  destruct (walk_resolved (graph top) vs es (vertex_reliability (graph top) sv dv) Hes)
    as (L & R & Hwalk & HR & Hshort & Hlong).
  exists es, L, R. eexists. rewrite Hwalk.
  split; [exact Hes|]. split; [reflexivity|].
  split; [repeat split|]. split; [reflexivity|].
  split; [|split; assumption].
  rewrite HR. apply vertex_edge_reliability.
Qed.

(** ** The cache *)

Ltac break_match :=
  match goal with
  | |- context [match ?x with _ => _ end] => destruct x eqn:?
  end.

Lemma cache_lookup_same_data top top' a b :
  same_data top top' ->
  _topology_getPathFromCache top' a b = _topology_getPathFromCache top a b.
Proof.
  intros (_ & _ & _ & _ & Hc & _). unfold _topology_getPathFromCache. now rewrite Hc.
Qed.

Lemma cache_lookup_store top a b p c d :
  _topology_getPathFromCache (_topology_storePathInCache top a b p) c d
  = if decide (cache_key c d = cache_key a b) then Some p
    else _topology_getPathFromCache top c d.
Proof.
  unfold _topology_getPathFromCache, _topology_storePathInCache, cache_key. simpl.
  destruct (decide (GUINT_TO_POINTER (address_getID c) = GUINT_TO_POINTER (address_getID a)))
    as [Hsrc|Hsrc].
  - rewrite Hsrc, lookup_insert_eq.
    destruct (decide (GUINT_TO_POINTER (address_getID d) = GUINT_TO_POINTER (address_getID b)))
      as [Hdst|Hdst].
    + rewrite Hdst, lookup_insert_eq. rewrite decide_True; congruence.
    + rewrite lookup_insert_ne by congruence.
      rewrite decide_False by congruence.
      destruct (pathCache top) as [cache|]; simpl.
      * destruct (cache !! GUINT_TO_POINTER (address_getID a)); [reflexivity|].
        apply lookup_empty.
      * apply lookup_empty.
  - rewrite lookup_insert_ne by congruence.
    rewrite decide_False by congruence.
    destruct (pathCache top) as [cache|]; simpl; [reflexivity|].
    now rewrite lookup_empty.
Qed.

Lemma cache_lookup_store_same top a b p :
  _topology_getPathFromCache (_topology_storePathInCache top a b p) a b = Some p.
Proof. rewrite cache_lookup_store. now rewrite decide_True. Qed.

(** A store at a key that missed leaves every present entry as it was. *)
Lemma cache_lookup_store_kept top a b p c d q :
  _topology_getPathFromCache top a b = None ->
  _topology_getPathFromCache top c d = Some q ->
  _topology_getPathFromCache (_topology_storePathInCache top a b p) c d = Some q.
Proof.
  intros Hmiss Hhit. rewrite cache_lookup_store.
  destruct (decide (cache_key c d = cache_key a b)) as [Hk|Hk]; [|exact Hhit].
  exfalso. unfold cache_key in Hk. inversion Hk as [[Hs Hd]].
  unfold _topology_getPathFromCache in *. rewrite Hs, Hd in Hhit. congruence.
Qed.

Lemma store_fields top a b p :
  virtualIP (_topology_storePathInCache top a b p) = virtualIP top
  /\ graph (_topology_storePathInCache top a b p) = graph top
  /\ edgeWeights (_topology_storePathInCache top a b p) = edgeWeights top
  /\ graphLock (_topology_storePathInCache top a b p) = graphLock top
  /\ log (_topology_storePathInCache top a b p) = log top.
Proof. repeat split. Qed.

(** ** What [_topology_computePath] leaves untouched *)

Lemma same_data_trans top1 top2 top3 :
  same_data top1 top2 -> same_data top2 top3 -> same_data top1 top3.
Proof.
  unfold same_data. intros H12 H23.
  repeat match goal with H : _ /\ _ |- _ => destruct H end.
  repeat split; congruence.
Qed.

Lemma getConnectedVertexIndex_same_data top a v top' :
  _topology_getConnectedVertexIndex top a = (v, top') ->
  same_data top top' /\ graphLock top' = graphLock top.
Proof.
  unfold _topology_getConnectedVertexIndex.
  break_match; intros H; inversion H; subst; repeat split.
Qed.

Lemma computePath_same_data top a b r top' :
  _topology_computePath top a b = (r, top') -> same_data top top'.
Proof.
  unfold _topology_computePath.
  destruct (_topology_getConnectedVertexIndex top a) as [sv t1] eqn:H1.
  destruct (_topology_getConnectedVertexIndex t1 b) as [dv t2] eqn:H2.
  apply getConnectedVertexIndex_same_data in H1 as [H1 _].
  apply getConnectedVertexIndex_same_data in H2 as [H2 _].
  repeat break_match; intros H; inversion H; subst;
    (eapply same_data_trans; [exact H1|]; eapply same_data_trans; [exact H2|]);
    repeat split.
Qed.

(** The graph lock is free again after every exit of [_topology_computePath]. *)
Lemma computePath_lock top a b r top' :
  graphLock top = false ->
  _topology_computePath top a b = (r, top') -> graphLock top' = false.
Proof.
  intros Hfree. unfold _topology_computePath.
  destruct (_topology_getConnectedVertexIndex top a) as [sv t1] eqn:H1.
  destruct (_topology_getConnectedVertexIndex t1 b) as [dv t2] eqn:H2.
  apply getConnectedVertexIndex_same_data in H1 as [_ H1].
  apply getConnectedVertexIndex_same_data in H2 as [_ H2].
  repeat break_match; intros H; inversion H; subst; simpl; congruence.
Qed.

(** ** [_topology_getPathEntry] and the public queries through [path_entry] *)

Lemma getPathEntry_path_entry top a b latency reliability :
  _topology_getPathEntry top a b latency reliability
  = match path_entry top a b with
    | (Some p, top') =>
        (true,
         match latency with Some _ => Some (path_getLatency p) | None => None end,
         match reliability with Some _ => Some (path_getReliability p) | None => None end,
         top')
    | (None, top') => (false, latency, reliability, top')
    end.
Proof.
  unfold _topology_getPathEntry, path_entry.
  destruct (_topology_getPathFromCache top a b); [reflexivity|].
  destruct (_topology_computePath top a b) as [[p|] top']; reflexivity.
Qed.

Lemma getLatency_path_entry top a b :
  topology_getLatency top a b
  = match path_entry top a b with
    | (Some p, top') => (path_getLatency p, top')
    | (None, top') => ((-1)%Q, top')
    end.
Proof.
  unfold topology_getLatency. rewrite getPathEntry_path_entry.
  destruct (path_entry top a b) as [[p|] top']; reflexivity.
Qed.

Lemma getReliability_path_entry top a b :
  topology_getReliability top a b
  = match path_entry top a b with
    | (Some p, top') => (path_getReliability p, top')
    | (None, top') => ((-1)%Q, top')
    end.
Proof.
  unfold topology_getReliability. rewrite getPathEntry_path_entry.
  destruct (path_entry top a b) as [[p|] top']; reflexivity.
Qed.

Lemma isRoutable_path_entry top a b :
  topology_isRoutable top a b
  = match path_entry top a b with
    | (Some p, top') => (Qlt_bool (-1) (path_getLatency p), top')
    | (None, top') => (false, top')
    end.
Proof.
  unfold topology_isRoutable. rewrite getLatency_path_entry.
  destruct (path_entry top a b) as [[p|] top']; reflexivity.
Qed.

Lemma path_entry_hit top a b p :
  _topology_getPathFromCache top a b = Some p -> path_entry top a b = (Some p, top).
Proof. intros H. unfold path_entry. now rewrite H. Qed.

Lemma computePath_Some_inv top a b p top' :
  _topology_computePath top a b = (Some p, top') ->
  exists sv dv vs L R,
    walk (graph top) vs (vertex_reliability (graph top) sv dv) = inr (L, R)
    /\ p = path_new L R.
Proof.
  unfold _topology_computePath.
  destruct (_topology_getConnectedVertexIndex top a) as [sv t1] eqn:H1.
  destruct (_topology_getConnectedVertexIndex t1 b) as [dv t2] eqn:H2.
  apply getConnectedVertexIndex_same_data in H1 as [H1 _].
  apply getConnectedVertexIndex_same_data in H2 as [H2 _].
  pose proof (same_data_trans _ _ _ H1 H2) as (_ & Hg & _).
  destruct ((sv <? 0) || (dv <? 0)); [discriminate|].
  destruct (negb (igraph_vs_1 dv =? IGRAPH_SUCCESS)); [discriminate|].
  destruct (negb (igraph_vector_ptr_init 1 =? IGRAPH_SUCCESS)); [discriminate|].
  destruct (negb (igraph_vector_init 0 =? IGRAPH_SUCCESS)); [discriminate|].
  cbv zeta.
  destruct (igraph_get_shortest_paths_dijkstra _ sv dv _) as [result vs].
  destruct (negb (result =? IGRAPH_SUCCESS)); [discriminate|].
  change (graph (debug _ (g_mutex_lock t2))) with (graph t2).
  rewrite Hg.
  fold (vertex_reliability (graph top) sv dv).
  match goal with
  | |- context [match ?w with inl _ => _ | inr _ => _ end] =>
      change w with (walk (graph top) vs (vertex_reliability (graph top) sv dv))
  end.
  destruct (walk (graph top) vs (vertex_reliability (graph top) sv dv)) as [rc|[L R]] eqn:Hw;
    [discriminate|].
  intros H. inversion H; subst. now exists sv, dv, vs, L, R.
Qed.

(** ** Ranges *)

Lemma path_loop_in_range g :
  attributes_in_range g ->
  forall rest from L R L' R',
    (0 <= L)%Q -> (0 <= R)%Q -> (R <= 1)%Q ->
    path_loop g from rest L R = inr (L', R') ->
    (0 <= L')%Q /\ (0 <= R')%Q /\ (R' <= 1)%Q.
Proof.
  intros [Hedges _]. induction rest as [|to rest IH]; intros from L R L' R' HL HR0 HR1; simpl.
  - intros H. inversion H; subst. auto.
  - destruct (igraph_get_eid g from to) as [result e] eqn:Heid.
    destruct (result =? IGRAPH_SUCCESS) eqn:Hrc; simpl; [|discriminate].
    apply Z.eqb_eq in Hrc. subst result.
    destruct (Hedges from to e Heid) as (Hlat & Hp0 & Hp1).
    apply IH; [lra | nra | nra].
Qed.

Lemma vertex_reliability_in_range g sv dv :
  attributes_in_range g ->
  (0 <= vertex_reliability g sv dv)%Q /\ (vertex_reliability g sv dv <= 1)%Q.
Proof.
  intros [_ Hvertices]. unfold vertex_reliability.
  destruct (Hvertices sv) as [Hs0 Hs1], (Hvertices dv) as [Hd0 Hd1].
  split; nra.
Qed.

Lemma walk_in_range g vs R0 L R :
  attributes_in_range g ->
  (0 <= R0)%Q -> (R0 <= 1)%Q ->
  walk g vs R0 = inr (L, R) ->
  (0 <= L)%Q /\ (0 <= R)%Q /\ (R <= 1)%Q.
Proof.
  intros Hattr HR0 HR1. unfold walk.
  destruct (Z.of_nat (length vs) <? 2).
  - intros H. inversion H; subst. repeat split; [lra | assumption | assumption].
  - apply (path_loop_in_range g Hattr); [lra | assumption | assumption].
Qed.

Lemma computePath_in_range top a b p top' :
  attributes_in_range (graph top) ->
  _topology_computePath top a b = (Some p, top') ->
  in_range p.
Proof.
  intros Hattr Hcompute.
  destruct (computePath_Some_inv top a b p top' Hcompute) as (sv & dv & vs & L & R & Hwalk & ->).
  destruct (vertex_reliability_in_range (graph top) sv dv Hattr) as [H0 H1].
  exact (walk_in_range _ _ _ _ _ Hattr H0 H1 Hwalk).
Qed.

(** ** The three ways a query ends *)

Lemma path_entry_cases top a b r top' :
  path_entry top a b = (r, top') ->
  (exists p, _topology_getPathFromCache top a b = Some p /\ r = Some p /\ top' = top)
  \/ (exists p t,
        _topology_getPathFromCache top a b = None
        /\ _topology_computePath top a b = (Some p, t)
        /\ r = Some p /\ top' = _topology_storePathInCache t a b p)
  \/ (_topology_getPathFromCache top a b = None
      /\ _topology_computePath top a b = (None, top') /\ r = None).
Proof.
  unfold path_entry.
  destruct (_topology_getPathFromCache top a b) as [p|] eqn:Hcache.
  - intros H. inversion H; subst. left. eauto.
  - destruct (_topology_computePath top a b) as [[p|] t] eqn:Hcompute;
      intros H; inversion H; subst.
    + right. left. eauto 10.
    + right. right. auto.
Qed.

Lemma getLatency_state top a b :
  snd (topology_getLatency top a b) = snd (path_entry top a b).
Proof.
  rewrite getLatency_path_entry. now destruct (path_entry top a b) as [[p|] t].
Qed.

Lemma getReliability_state top a b :
  snd (topology_getReliability top a b) = snd (path_entry top a b).
Proof.
  rewrite getReliability_path_entry. now destruct (path_entry top a b) as [[p|] t].
Qed.

Lemma isRoutable_state top a b :
  snd (topology_isRoutable top a b) = snd (path_entry top a b).
Proof.
  rewrite isRoutable_path_entry. now destruct (path_entry top a b) as [[p|] t].
Qed.

(** A query keeps the graph, the attachments and every cached path; the
    path it adds, if any, is one [_topology_computePath] returned. *)
Lemma path_entry_effect top a b r top' :
  path_entry top a b = (r, top') ->
  graph top' = graph top /\ virtualIP top' = virtualIP top
  /\ edgeWeights top' = edgeWeights top
  /\ (forall c d q, _topology_getPathFromCache top c d = Some q ->
                    _topology_getPathFromCache top' c d = Some q)
  /\ (forall c d q, _topology_getPathFromCache top' c d = Some q ->
        _topology_getPathFromCache top c d = Some q
        \/ exists t, _topology_computePath top a b = (Some q, t)).
Proof.
  intros H. destruct (path_entry_cases top a b r top' H)
    as [(p & Hhit & -> & ->) | [(p & t & Hmiss & Hcompute & -> & ->) | (Hmiss & Hcompute & ->)]].
  - repeat split; auto.
  - pose proof (computePath_same_data _ _ _ _ _ Hcompute) as Hsame.
    pose proof Hsame as (_ & Hg & Hw & Hv & Hc & _).
    repeat split; simpl; try assumption.
    + intros c d q Hq. apply cache_lookup_store_kept.
      * now rewrite (cache_lookup_same_data top t a b Hsame).
      * now rewrite (cache_lookup_same_data top t c d Hsame).
    + intros c d q. rewrite cache_lookup_store.
      destruct (decide (cache_key c d = cache_key a b)).
      * intros Hq. inversion Hq; subst. right. eauto.
      * rewrite (cache_lookup_same_data top t c d Hsame). auto.
  - pose proof (computePath_same_data _ _ _ _ _ Hcompute) as Hsame.
    pose proof Hsame as (_ & Hg & Hw & Hv & Hc & _).
    repeat split; try assumption.
    + intros c d q. now rewrite (cache_lookup_same_data top top' c d Hsame).
    + intros c d q. rewrite (cache_lookup_same_data top top' c d Hsame). auto.
Qed.

(** ** Attach and detach leave the cache alone *)

Lemma iterate_connect_hook vs : forall top assist,
  fst (iterate_hook _topology_connectHelperHook vs top assist) = top.
Proof.
  unfold iterate_hook.
  induction vs as [|v vs IH]; intros top assist; simpl; [reflexivity|].
  unfold _topology_connectHelperHook at 2.
  destruct (g_strstr_len (VAS (graph top) "id" v) "poi"); simpl; apply IH.
Qed.

Lemma iterateAllVertices_connect_same_data top assist n top' assist' :
  _topology_iterateAllVertices top _topology_connectHelperHook assist = (n, top', assist') ->
  same_data top top'.
Proof.
  unfold _topology_iterateAllVertices.
  destruct (igraph_vit_create (graph top)) as [result vs].
  destruct (negb (result =? IGRAPH_SUCCESS)).
  - intros H. inversion H; subst. repeat split.
  - pose proof (iterate_connect_hook vs top assist) as Hfst.
    destruct (iterate_hook _topology_connectHelperHook vs top assist) as [t u].
    simpl in Hfst. subst t. intros H. inversion H; subst. repeat split.
Qed.

Lemma connect_effect top a u ip cl ty dn up top' bwDown bwUp :
  topology_connect top a u ip cl ty dn up = Returns (top', bwDown, bwUp) ->
  graph top' = graph top /\ edgeWeights top' = edgeWeights top
  /\ pathCache top' = pathCache top
  /\ exists v, -1 < v
       /\ virtualIP top'
          = <[GUINT_TO_POINTER (address_toNetworkIP a) := GINT_TO_POINTER v]> (virtualIP top).
Proof.
  unfold topology_connect.
  destruct (_topology_iterateAllVertices (g_mutex_lock top) _topology_connectHelperHook
              (mkConnectAssist [] ty cl ip)) as [[n t] assist] eqn:Hiter.
  apply iterateAllVertices_connect_same_data in Hiter.
  destruct Hiter as (_ & Hg & Hw & Hv & Hc & _). simpl in Hg, Hw, Hv, Hc.
  destruct (negb (0 <? guint_wrap (Z.of_nat (length (candidates assist)))));
    [discriminate|].
  match goal with |- context [if ?x =? NULL then _ else _] => destruct (x =? NULL) end;
    [discriminate|].
  match goal with |- context [memory_load ?x] => destruct (memory_load x) as [v|] end;
    [|discriminate].
  destruct (negb (-1 <? v)) eqn:Hneg; [discriminate|].
  intros H. inversion H; subst. simpl.
  repeat split; try assumption.
  exists v. split; [|now rewrite Hv].
  apply Z.ltb_lt. now destruct (-1 <? v).
Qed.

Lemma connect_returns_attach_at top a u ip cl ty dn up top' bwDown bwUp :
  topology_connect top a u ip cl ty dn up = Returns (top', bwDown, bwUp) ->
  exists v, -1 < v /\ top' = attach_at top a v.
Proof.
  unfold topology_connect, _topology_iterateAllVertices.
  change (graph (g_mutex_lock top)) with (graph top).
  destruct (igraph_vit_create (graph top)) as [result vs].
  destruct (negb (result =? IGRAPH_SUCCESS)); [discriminate|].
  pose proof (iterate_connect_hook vs (g_mutex_lock top) (mkConnectAssist [] ty cl ip)) as Hfst.
  destruct (iterate_hook _topology_connectHelperHook vs (g_mutex_lock top)
              (mkConnectAssist [] ty cl ip)) as [t assist].
  simpl in Hfst. subst t.
  destruct (negb (0 <? guint_wrap (Z.of_nat (length (candidates assist)))));
    [discriminate|].
  match goal with |- context [if ?x =? NULL then _ else _] => destruct (x =? NULL) end;
    [discriminate|].
  match goal with |- context [memory_load ?x] => destruct (memory_load x) as [v|] end;
    [|discriminate].
  destruct (negb (-1 <? v)) eqn:Hneg; [discriminate|].
  intros H. inversion H; subst. exists v. split; [|reflexivity].
  apply Z.ltb_lt. now destruct (-1 <? v).
Qed.

Lemma disconnect_effect top a :
  graph (topology_disconnect top a) = graph top
  /\ edgeWeights (topology_disconnect top a) = edgeWeights top
  /\ pathCache (topology_disconnect top a) = pathCache top.
Proof. repeat split. Qed.

Lemma cache_lookup_pathCache top top' a b :
  pathCache top' = pathCache top ->
  _topology_getPathFromCache top' a b = _topology_getPathFromCache top a b.
Proof. intros H. unfold _topology_getPathFromCache. now rewrite H. Qed.

(** ** One call, then many *)

Lemma call_effect top c top' :
  call top c = Returns top' ->
  graph top' = graph top /\ edgeWeights top' = edgeWeights top
  /\ (forall s d q, _topology_getPathFromCache top s d = Some q ->
                    _topology_getPathFromCache top' s d = Some q)
  /\ (cache_all (computed_on (graph top)) top ->
      cache_all (computed_on (graph top)) top').
Proof.
  assert (Hquery : forall a b, 
    let top' := snd (path_entry top a b) in
    graph top' = graph top /\ edgeWeights top' = edgeWeights top
    /\ (forall s d q, _topology_getPathFromCache top s d = Some q ->
                      _topology_getPathFromCache top' s d = Some q)
    /\ (cache_all (computed_on (graph top)) top ->
        cache_all (computed_on (graph top)) top')).
  { intros a b. destruct (path_entry top a b) as [r t] eqn:Hentry. simpl.
    destruct (path_entry_effect top a b r t Hentry) as (Hg & _ & Hw & Hkept & Hnew).
    repeat split; try assumption.
    intros Hall s d q Hq. destruct (Hnew s d q Hq) as [Hold | [t0 Hcomputed]].
    - exact (Hall s d q Hold).
    - exists top, a, b, t0. auto. }
  destruct c as [a u ip cl ty dn up | a | a b | a b | a b]; simpl.
  - destruct (topology_connect top a u ip cl ty dn up) as [[[t bd] bu] | | ] eqn:Hc;
      try discriminate.
    intros H. inversion H; subst.
    destruct (connect_effect _ _ _ _ _ _ _ _ _ _ _ Hc) as (Hg & Hw & Hcache & _).
    repeat split; try assumption.
    + intros s d q. now rewrite (cache_lookup_pathCache top top' s d Hcache).
    + intros Hall s d q. rewrite (cache_lookup_pathCache top top' s d Hcache). apply Hall.
  - intros H. inversion H; subst. repeat split; auto.
  - intros H. inversion H; subst. rewrite getLatency_state. apply Hquery.
  - intros H. inversion H; subst. rewrite getReliability_state. apply Hquery.
  - intros H. inversion H; subst. rewrite isRoutable_state. apply Hquery.
Qed.

Lemma calls_effect cs : forall top top',
  calls top cs = Returns top' ->
  graph top' = graph top /\ edgeWeights top' = edgeWeights top
  /\ (forall s d q, _topology_getPathFromCache top s d = Some q ->
                    _topology_getPathFromCache top' s d = Some q)
  /\ (cache_all (computed_on (graph top)) top ->
      cache_all (computed_on (graph top)) top').
Proof.
  induction cs as [|c cs IH]; intros top top'; simpl.
  - intros H. inversion H; subst. auto.
  - destruct (call top c) as [t| |] eqn:Hcall; try discriminate.
    intros Hrest.
    destruct (call_effect top c t Hcall) as (Hg & Hw & Hkept & Hall).
    destruct (IH t top' Hrest) as (Hg' & Hw' & Hkept' & Hall').
    rewrite Hg in Hg', Hall'.
    repeat split; try congruence; auto.
Qed.

Lemma cache_all_empty (P : Path -> Prop) top :
  pathCache top = None -> cache_all P top.
Proof.
  intros Hnone s d q. unfold _topology_getPathFromCache. now rewrite Hnone.
Qed.

Lemma path_entry_computed top a b p t :
  _topology_getPathFromCache top a b = None ->
  _topology_computePath top a b = (Some p, t) ->
  path_entry top a b = (Some p, _topology_storePathInCache t a b p).
Proof. intros Hmiss Hc. unfold path_entry. now rewrite Hmiss, Hc. Qed.

Lemma path_entry_failed top a b t :
  _topology_getPathFromCache top a b = None ->
  _topology_computePath top a b = (None, t) ->
  path_entry top a b = (None, t).
Proof. intros Hmiss Hc. unfold path_entry. now rewrite Hmiss, Hc. Qed.

(** ** A fresh topology has no attachment and no cache *)

Lemma debug_names_tables fmt names : forall top,
  tables (debug_names fmt names top) = tables top.
Proof.
  unfold debug_names. induction names as [|n names IH]; intros top; simpl; [reflexivity|].
  now rewrite IH.
Qed.

Lemma iterate_hook_tables {U : Type} (hook : NotifyFunc U) :
  (forall top index u, tables (fst (hook top index u)) = tables top) ->
  forall indices top u, tables (fst (iterate_hook hook indices top u)) = tables top.
Proof.
  intros Hhook. unfold iterate_hook.
  induction indices as [|i indices IH]; intros top u; simpl; [reflexivity|].
  destruct (hook top i u) as [t u'] eqn:Hstep. simpl.
  rewrite IH. specialize (Hhook top i u). now rewrite Hstep in Hhook.
Qed.

Lemma loadGraph_tables top : tables (snd (_topology_loadGraph top)) = tables top.
Proof. unfold _topology_loadGraph. repeat break_match; reflexivity. Qed.

Lemma checkGraphProperties_tables top :
  tables (snd (_topology_checkGraphProperties top)) = tables top.
Proof.
  unfold _topology_checkGraphProperties.
  repeat break_match; cbn [snd]; try reflexivity.
  match goal with
  | |- tables (info _ ?t) = _ => change (tables t = tables top)
  end.
  now rewrite !debug_names_tables.
Qed.

Lemma checkGraphVertices_tables top :
  tables (snd (_topology_checkGraphVertices top)) = tables top.
Proof.
  unfold _topology_checkGraphVertices, _topology_iterateAllVertices.
  destruct (igraph_vit_create _) as [result vs].
  destruct (negb (result =? IGRAPH_SUCCESS)); [reflexivity|].
  match goal with
  | |- context [iterate_hook ?h ?l ?t ?u] =>
      assert (Hit : tables (fst (iterate_hook h l t u)) = tables top);
      [ rewrite (iterate_hook_tables h); [reflexivity|];
        intros t0 i u0; unfold _topology_checkGraphVerticesHelperHook;
        now destruct (g_strstr_len _ _)
      | destruct (iterate_hook h l t u) as [t1 u1] ]
  end.
  simpl in Hit. repeat break_match; simpl; exact Hit.
Qed.

Lemma checkGraphEdges_tables top :
  tables (snd (_topology_checkGraphEdges top)) = tables top.
Proof.
  unfold _topology_checkGraphEdges, _topology_iterateAllEdges.
  destruct (igraph_eit_create _) as [result es].
  destruct (negb (result =? IGRAPH_SUCCESS)); [reflexivity|].
  match goal with
  | |- context [iterate_hook ?h ?l ?t ?u] =>
      assert (Hit : tables (fst (iterate_hook h l t u)) = tables top);
      [ rewrite (iterate_hook_tables h); [reflexivity|];
        intros t0 i u0; unfold _topology_checkGraphEdgesHelperHook;
        destruct (igraph_edge _ _) as [rc ends];
        now destruct (negb (rc =? IGRAPH_SUCCESS))
      | destruct (iterate_hook h l t u) as [t1 u1] ]
  end.
  simpl in Hit. repeat break_match; simpl; exact Hit.
Qed.

Lemma checkGraph_tables top : tables (snd (_topology_checkGraph top)) = tables top.
Proof.
  unfold _topology_checkGraph.
  pose proof (checkGraphProperties_tables top) as H1.
  destruct (_topology_checkGraphProperties top) as [ok1 t1]. cbn [snd] in H1.
  destruct ok1; cbn [negb snd]; [|exact H1].
  pose proof (checkGraphVertices_tables t1) as H2.
  destruct (_topology_checkGraphVertices t1) as [ok2 t2]. cbn [snd] in H2.
  destruct ok2; cbn [negb snd]; [|congruence].
  pose proof (checkGraphEdges_tables t2) as H3.
  destruct (_topology_checkGraphEdges t2) as [ok3 t3]. cbn [snd] in H3.
  destruct ok3; cbn [negb snd]; [|congruence].
  change (tables t3 = tables top). congruence.
Qed.

Lemma extractEdgeWeights_tables top :
  tables (snd (_topology_extractEdgeWeights top)) = tables top
  /\ graphLock (snd (_topology_extractEdgeWeights top)) = false.
Proof.
  unfold _topology_extractEdgeWeights. repeat break_match; split; reflexivity.
Qed.

(** What [topology_new] returns has an empty attachment table, no path
    cache, and a free graph lock. *)
Lemma topology_new_fresh path top :
  topology_new path = NewTopology top ->
  virtualIP top = ∅ /\ pathCache top = None /\ graphLock top = false.
Proof.
  unfold topology_new.
  pose proof (loadGraph_tables (topology_g_new0 path)) as H1.
  destruct (_topology_loadGraph (topology_g_new0 path)) as [ok1 t1]. cbn [snd] in H1.
  destruct ok1; cbn [negb]; [|discriminate].
  pose proof (checkGraph_tables t1) as H2.
  destruct (_topology_checkGraph t1) as [ok2 t2]. cbn [snd] in H2.
  destruct ok2; cbn [negb]; [|discriminate].
  pose proof (extractEdgeWeights_tables t2) as [H3 Hlock].
  destruct (_topology_extractEdgeWeights t2) as [ok3 t3]. cbn [snd] in H3, Hlock.
  destruct ok3; cbn [negb]; [|discriminate].
  intros H. inversion H; subst.
  assert (Ht : tables top = tables (topology_g_new0 path)) by congruence.
  unfold tables in Ht. simpl in Ht. inversion Ht. auto.
Qed.

(** * The claims *)

(** C1 (amended).  On a loaded topology, for attached addresses src and dst
    whose path is not cached yet and whose graph primitives succeed, the
    query computes the reliability as (1 - packetloss of the source vertex)
    times the product over the edges of the shortest path of (1 - packetloss
    of the edge) times (1 - packetloss of the destination vertex); the
    latency is the sum of the latency attribute of those edges when the path
    has at least two vertices, and 1.0 when it has fewer.  With vertex losses
    0.1 and 0.2 and a single edge of loss 0.05 the reliability is 0.684. *)
Theorem computed_path_latency_and_reliability top a b sv dv :
  attached_at top a sv -> attached_at top b dv ->
  _topology_getPathFromCache top a b = None ->
  primitives_succeed top sv dv ->
  let g := graph top in
  let vs := snd (igraph_get_shortest_paths_dijkstra g sv dv (edgeWeights top)) in
  exists es,
    spec_path_edges g vs = Some es
    /\ (fst (topology_getReliability top a b) == spec_reliability g sv dv es)%Q
    /\ ((2 <= length vs)%nat ->
        (fst (topology_getLatency top a b) == spec_latency g es)%Q)
    /\ ((length vs < 2)%nat -> fst (topology_getLatency top a b) = 1%Q)
    /\ (forall e, es = [e] ->
          (VAN g "packetloss" sv == 1 # 10)%Q ->
          (VAN g "packetloss" dv == 2 # 10)%Q ->
          (EAN g "packetloss" e == 5 # 100)%Q ->
          (fst (topology_getReliability top a b) == 684 # 1000)%Q).
Proof.
  intros Ha Hb Hmiss Hok g vs.
  destruct (computePath_success top a b sv dv Ha Hb Hok)
    as (es & L & R & top' & Hes & Hcompute & _ & _ & HR & Hshort & Hlong).
  pose proof (path_entry_computed top a b _ _ Hmiss Hcompute) as Hentry.
  rewrite getReliability_path_entry, getLatency_path_entry, Hentry. simpl.
  exists es. split; [exact Hes|]. split; [exact HR|]. split; [exact Hlong|].
  split; [intros Hlen; now destruct (Hshort Hlen)|].
  intros e -> Hs Hd He. rewrite HR. unfold spec_reliability, spec_edge_reliability.
  simpl. fold g. rewrite Hs, Hd, He. reflexivity.
Qed.

(** C2 (amended).  For addresses attached to the same vertex v (the same
    address twice, or two addresses) whose path is not cached yet, when the
    shortest-path vertex sequence has fewer than two vertices (one, or none
    as for self-to-self), getLatency returns exactly 1.0 and getReliability
    returns (1 - ploss v) * (1 - ploss v); that value lies in [0,1] when
    ploss v does, and is positive when moreover ploss v < 1. *)
Theorem same_vertex_latency_and_reliability top a b v :
  attached_at top a v -> attached_at top b v ->
  _topology_getPathFromCache top a b = None ->
  primitives_succeed top v v ->
  (length (snd (igraph_get_shortest_paths_dijkstra (graph top) v v (edgeWeights top))) < 2)%nat ->
  fst (topology_getLatency top a b) = 1%Q
  /\ (fst (topology_getReliability top a b)
      == (1 - VAN (graph top) "packetloss" v) * (1 - VAN (graph top) "packetloss" v))%Q
  /\ ((0 <= VAN (graph top) "packetloss" v)%Q ->
      (VAN (graph top) "packetloss" v <= 1)%Q ->
      (0 <= fst (topology_getReliability top a b))%Q
      /\ (fst (topology_getReliability top a b) <= 1)%Q)
  /\ ((0 <= VAN (graph top) "packetloss" v)%Q ->
      (VAN (graph top) "packetloss" v < 1)%Q ->
      (0 < fst (topology_getReliability top a b))%Q).
Proof.
  intros Ha Hb Hmiss Hok Hlen.
  set (ploss := VAN (graph top) "packetloss" v).
  set (reliability := fst (topology_getReliability top a b)).
  destruct (computePath_success top a b v v Ha Hb Hok)
    as (es & L & R & top' & Hes & Hcompute & _ & _ & HR & Hshort & _).
  destruct (Hshort Hlen) as [-> ->].
  pose proof (path_entry_computed top a b _ _ Hmiss Hcompute) as Hentry.
  subst reliability.
  rewrite getReliability_path_entry, getLatency_path_entry, Hentry. simpl.
  assert (Hval : (R == (1 - ploss) * (1 - ploss))%Q).
  { rewrite HR. unfold spec_reliability, spec_edge_reliability. simpl.
    fold ploss. ring. }
  split; [reflexivity|]. split; [exact Hval|]. split.
  - intros H0 H1. rewrite Hval. split; nra.
  - intros H0 H1. rewrite Hval. nra.
Qed.

Lemma computePath_unattached top a b :
  unattached top a \/ unattached top b ->
  exists top' l,
    _topology_computePath top a b = (None, top')
    /\ same_data top top' /\ graphLock top' = graphLock top
    /\ log top' = (log top ++ l)%list
    /\ In (LogWarning, "address %s is not connected to the topology") l.
Proof.
  intros Hun. unfold _topology_computePath.
  destruct (getConnectedVertexIndex_cases top a) as [(pa & Hpa & ->) | [Hua ->]].
  - destruct Hun as [Hua | Hub]; [unfold unattached in Hua; congruence|].
    rewrite (getConnectedVertexIndex_unattached top b Hub).
    rewrite orb_true_r.
    exists (warning "address %s is not connected to the topology" top),
      [(LogWarning, "address %s is not connected to the topology")].
    repeat split. now left.
  - set (t1 := warning "address %s is not connected to the topology" top).
    destruct (getConnectedVertexIndex_cases t1 b) as [(pb & Hpb & ->) | [Hub ->]]; simpl.
    + exists t1, [(LogWarning, "address %s is not connected to the topology")].
      repeat split. now left.
    + exists (warning "address %s is not connected to the topology" t1),
        [(LogWarning, "address %s is not connected to the topology");
         (LogWarning, "address %s is not connected to the topology")].
      repeat split; [|now left].
      simpl. now rewrite <- app_assoc.
Qed.

(** C4 (amended).  For every query where the source or the destination
    address is absent from the virtual-IP table and no path is cached for the
    pair, getLatency and getReliability return -1, isRoutable returns false,
    a warning is logged, the call returns normally, and the path cache and
    the attachment table are left as they were. *)
Theorem unattached_uncached_query_fails top a b :
  unattached top a \/ unattached top b ->
  _topology_getPathFromCache top a b = None ->
  exists top' l,
    topology_getLatency top a b = ((-1)%Q, top')
    /\ topology_getReliability top a b = ((-1)%Q, top')
    /\ topology_isRoutable top a b = (false, top')
    /\ log top' = (log top ++ l)%list
    /\ In (LogWarning, "address %s is not connected to the topology") l
    /\ pathCache top' = pathCache top
    /\ virtualIP top' = virtualIP top.
Proof.
  intros Hun Hmiss.
  destruct (computePath_unattached top a b Hun) as (top' & l & Hc & Hsame & _ & Hlog & Hin).
  pose proof (path_entry_failed top a b top' Hmiss Hc) as Hentry.
  destruct Hsame as (_ & _ & _ & Hv & Hcache & _).
  exists top', l.
  rewrite getLatency_path_entry, getReliability_path_entry, isRoutable_path_entry, Hentry.
  repeat split; assumption.
Qed.

Lemma computePath_failure top a b sv dv :
  attached_at top a sv -> attached_at top b dv ->
  ~ primitives_succeed top sv dv ->
  exists top' l lvl msg,
    _topology_computePath top a b = (None, top')
    /\ same_data top top'
    /\ log top' = (log top ++ l)%list
    /\ In (lvl, msg) l /\ (lvl = LogCritical \/ lvl = LogWarning).
Proof.
  intros Ha Hb Hfail. unfold _topology_computePath.
  rewrite (getConnectedVertexIndex_attached top a sv Ha).
  rewrite (getConnectedVertexIndex_attached top b dv Hb).
  destruct Ha as (_ & _ & _ & Hsv), Hb as (_ & _ & _ & Hdv).
  replace (sv <? 0) with false by (symmetry; apply Z.ltb_ge; lia).
  replace (dv <? 0) with false by (symmetry; apply Z.ltb_ge; lia).
  cbn [orb].
  destruct (igraph_vs_1 dv =? IGRAPH_SUCCESS) eqn:Hvs; cbn [negb].
  2:{ do 2 eexists. exists LogCritical. eexists.
      split; [reflexivity|]. split; [repeat split|]. split; [reflexivity|].
      split; [now left | now left]. }
  destruct (igraph_vector_ptr_init 1 =? IGRAPH_SUCCESS) eqn:Hptr; cbn [negb].
  2:{ do 2 eexists. exists LogCritical. eexists.
      split; [reflexivity|]. split; [repeat split|]. split; [reflexivity|].
      split; [now left | now left]. }
  destruct (igraph_vector_init 0 =? IGRAPH_SUCCESS) eqn:Hvec; cbn [negb].
  2:{ do 2 eexists. exists LogCritical. eexists.
      split; [reflexivity|]. split; [repeat split|]. split; [reflexivity|].
      split; [now left | now left]. }
  apply Z.eqb_eq in Hvs, Hptr, Hvec.
  cbv zeta. change (graph (debug _ (g_mutex_lock top))) with (graph top).
  change (edgeWeights (debug _ (g_mutex_lock top))) with (edgeWeights top).
  destruct (igraph_get_shortest_paths_dijkstra (graph top) sv dv (edgeWeights top))
    as [result vs] eqn:Hd.
  destruct (result =? IGRAPH_SUCCESS) eqn:Hrc; cbn [negb].
  2:{ do 2 eexists. exists LogCritical. eexists.
      split; [reflexivity|]. split; [repeat split|].
      split; [simpl; rewrite <- app_assoc; reflexivity|].
      split; [right; now left | now left]. }
  apply Z.eqb_eq in Hrc.
  fold (vertex_reliability (graph top) sv dv).
  match goal with
  | |- context [match ?w with inl _ => _ | inr _ => _ end] =>
      change w with (walk (graph top) vs (vertex_reliability (graph top) sv dv))
  end.
  destruct (spec_path_edges (graph top) vs) as [es|] eqn:Hes.
  { exfalso. apply Hfail. unfold primitives_succeed. rewrite Hd. simpl.
    repeat split; try assumption. now exists es. }
  destruct (walk_unresolved (graph top) vs (vertex_reliability (graph top) sv dv) Hes)
    as (rc & -> & _).
  do 2 eexists. exists LogWarning. eexists.
  split; [reflexivity|]. split; [repeat split|].
  split; [simpl; rewrite <- app_assoc; reflexivity|].
  split; [right; now left | now right].
Qed.

(** C9.  When a graph primitive of a query (the selector and vector set-up,
    Dijkstra, or the resolution of an edge of the path) returns a non-success
    code, the query returns -1, the failure is logged at critical or warning
    level, the graph lock is free afterwards, and the path cache is unchanged:
    the pair is still uncached, so a retry computes again. *)
Theorem failed_primitive_query_returns_minus_one top a b sv dv :
  attached_at top a sv -> attached_at top b dv ->
  _topology_getPathFromCache top a b = None ->
  graphLock top = false ->
  ~ primitives_succeed top sv dv ->
  exists top' l lvl msg,
    topology_getLatency top a b = ((-1)%Q, top')
    /\ topology_getReliability top a b = ((-1)%Q, top')
    /\ log top' = (log top ++ l)%list /\ In (lvl, msg) l
    /\ (lvl = LogCritical \/ lvl = LogWarning)
    /\ graphLock top' = false
    /\ pathCache top' = pathCache top
    /\ _topology_getPathFromCache top' a b = None.
Proof.
  intros Ha Hb Hmiss Hfree Hfail.
  destruct (computePath_failure top a b sv dv Ha Hb Hfail)
    as (top' & l & lvl & msg & Hc & Hsame & Hlog & Hin & Hlvl).
  pose proof (path_entry_failed top a b top' Hmiss Hc) as Hentry.
  pose proof (computePath_lock top a b None top' Hfree Hc) as Hlock.
  exists top', l, lvl, msg.
  rewrite getLatency_path_entry, getReliability_path_entry, Hentry.
  rewrite (cache_lookup_same_data top top' a b Hsame).
  destruct Hsame as (_ & _ & _ & _ & Hcache & _).
  repeat split; assumption.
Qed.

(** C5.  For attached addresses a and b whose primitives succeed, the first
    query misses the cache, computes the path and inserts it; after any
    further calls of the public interface the entry is still that path, and
    getLatency and getReliability return its two fields from the cache
    without changing the state: the first miss is followed only by hits. *)
Theorem cached_path_is_returned_unchanged top a b sv dv :
  attached_at top a sv -> attached_at top b dv ->
  primitives_succeed top sv dv ->
  _topology_getPathFromCache top a b = None ->
  exists p t top1,
    _topology_computePath top a b = (Some p, t)
    /\ top1 = _topology_storePathInCache t a b p
    /\ topology_getLatency top a b = (path_getLatency p, top1)
    /\ topology_getReliability top a b = (path_getReliability p, top1)
    /\ _topology_getPathFromCache top1 a b = Some p
    /\ forall cs topN,
         calls top1 cs = Returns topN ->
         _topology_getPathFromCache topN a b = Some p
         /\ topology_getLatency topN a b = (path_getLatency p, topN)
         /\ topology_getReliability topN a b = (path_getReliability p, topN).
Proof.
  intros Ha Hb Hok Hmiss.
  destruct (computePath_success top a b sv dv Ha Hb Hok)
    as (es & L & R & t & _ & Hcompute & _).
  pose proof (path_entry_computed top a b _ _ Hmiss Hcompute) as Hentry.
  exists (path_new L R), t, (_topology_storePathInCache t a b (path_new L R)).
  rewrite getLatency_path_entry, getReliability_path_entry, Hentry.
  split; [exact Hcompute|]. do 3 (split; [reflexivity|]).
  split; [apply cache_lookup_store_same|].
  intros cs topN Hcalls.
  destruct (calls_effect cs _ _ Hcalls) as (_ & _ & Hkept & _).
  pose proof (Hkept _ _ _ (cache_lookup_store_same t a b (path_new L R))) as Hhit.
  rewrite getLatency_path_entry, getReliability_path_entry.
  rewrite (path_entry_hit topN a b _ Hhit). auto.
Qed.

(** C8.  In every state reached by calls of the public interface from a
    state with an empty path cache, if every edge latency is > 0 and every
    vertex and edge packetloss lies in [0,1], then for attached a and b whose
    primitives succeed getLatency (a, b) is >= 0 and getReliability (a, b)
    lies in [0,1]. *)
Theorem query_results_in_range top0 cs top a b sv dv :
  pathCache top0 = None ->
  calls top0 cs = Returns top ->
  attributes_in_range (graph top) ->
  attached_at top a sv -> attached_at top b dv ->
  primitives_succeed top sv dv ->
  (0 <= fst (topology_getLatency top a b))%Q
  /\ (0 <= fst (topology_getReliability top a b))%Q
  /\ (fst (topology_getReliability top a b) <= 1)%Q.
Proof.
  intros Hempty Hcalls Hattr Ha Hb Hok.
  destruct (calls_effect cs top0 top Hcalls) as (Hg & _ & _ & Hall).
  specialize (Hall (cache_all_empty _ top0 Hempty)).
  assert (Hentry : exists p t, path_entry top a b = (Some p, t) /\ in_range p).
  { destruct (path_entry top a b) as [r t] eqn:Hentry.
    destruct (path_entry_cases top a b r t Hentry)
      as [(p & Hhit & -> & ->) | [(p & t' & _ & Hcompute & -> & ->) | (_ & Hcompute & ->)]].
    - exists p, top. split; [reflexivity|].
      destruct (Hall a b p Hhit) as (t0 & s & d & t1 & Hg0 & Hc0).
      apply (computePath_in_range t0 s d p t1); [|exact Hc0].
      now rewrite Hg0, <- Hg.
    - exists p, (_topology_storePathInCache t' a b p). split; [reflexivity|].
      exact (computePath_in_range top a b p t' Hattr Hcompute).
    - destruct (computePath_success top a b sv dv Ha Hb Hok)
        as (es & L & R & t' & _ & Hcompute' & _).
      congruence. }
  destruct Hentry as (p & t & Hentry & Hrange).
  rewrite getLatency_path_entry, getReliability_path_entry, Hentry. exact Hrange.
Qed.

(** C10.  detach (a) deletes the entry of a's IP from the virtual-IP table
    and changes nothing else: every other key of the table, the path cache
    (also the entries filed under a's ID), the graph, the edge weights, the
    lock, the counters and the log are as before. *)
Theorem disconnect_removes_only_the_address top a :
  let key := GUINT_TO_POINTER (address_toNetworkIP a) in
  let top' := topology_disconnect top a in
  virtualIP top' = delete key (virtualIP top)
  /\ unattached top' a
  /\ (forall k, k <> key -> virtualIP top' !! k = virtualIP top !! k)
  /\ pathCache top' = pathCache top
  /\ (forall s d, _topology_getPathFromCache top' s d = _topology_getPathFromCache top s d)
  /\ same_data (set_virtualIP (virtualIP top') top) top'
  /\ graph top' = graph top /\ edgeWeights top' = edgeWeights top
  /\ graphLock top' = graphLock top /\ log top' = log top.
Proof.
  intros key top'. subst top'. unfold topology_disconnect. fold key. simpl.
  repeat split.
  - unfold unattached. simpl. fold key. apply lookup_delete_eq.
  - intros k Hk. now apply lookup_delete_ne.
Qed.

(** ** Loading *)

Lemma checkGraphProperties_rejects top :
  snd (igraph_is_connected (graph top)) = false
  \/ 1 < snd (igraph_clusters (graph top)) ->
  fst (_topology_checkGraphProperties top) = false.
Proof.
  intros Hbad. unfold _topology_checkGraphProperties.
  change (graph (info _ top)) with (graph top).
  destruct (igraph_is_connected (graph top)) as [rc connected].
  destruct (negb (rc =? IGRAPH_SUCCESS)); [reflexivity|].
  change (graph (set_isConnected connected _)) with (graph top).
  destruct (igraph_clusters (graph top)) as [rc' count].
  destruct (negb (rc' =? IGRAPH_SUCCESS)); [reflexivity|].
  simpl in Hbad |- *.
  destruct Hbad as [-> | Hcount]; [reflexivity|].
  apply Z.ltb_lt in Hcount. rewrite Hcount. now rewrite orb_true_r.
Qed.

Lemma checkGraphProperties_accepts top :
  igraph_is_connected (graph top) = (IGRAPH_SUCCESS, true) ->
  igraph_clusters (graph top) = (IGRAPH_SUCCESS, 1) ->
  fst (igraph_cattribute_list (graph top)) = IGRAPH_SUCCESS ->
  fst (_topology_checkGraphProperties top) = true.
Proof.
  intros Hconn Hclusters Hattrs. unfold _topology_checkGraphProperties.
  change (graph (info _ top)) with (graph top). rewrite Hconn. simpl.
  rewrite Hclusters. simpl.
  destruct (igraph_cattribute_list (graph top)) as [rc [[gnames vnames] enames]].
  simpl in Hattrs. subst rc. reflexivity.
Qed.

Lemma topology_free_log top :
  topology_free top
  = (log top ++ [(LogMessage, "path cache cleared, spent %f seconds computing shortest paths")])%list.
Proof. reflexivity. Qed.

(** C3.  Loading a graph that is not strongly connected (the connectivity
    check reports false, or there is more than one strong cluster) fails: the
    property check returns FALSE and topology_new returns NULL, after
    topology_free ran on the partial object; a graph reported strongly
    connected with one cluster passes the property check. *)
Theorem disconnected_graph_is_rejected path file result g :
  fopen path = Some file ->
  igraph_read_graph_graphml file = (result, g) ->
  (snd (igraph_is_connected g) = false \/ 1 < snd (igraph_clusters g) ->
     (forall top, graph top = g -> fst (_topology_checkGraphProperties top) = false)
     /\ exists partial,
          topology_new path = NewNULL (topology_free partial)
          /\ graphPath partial = path)
  /\ (igraph_is_connected g = (IGRAPH_SUCCESS, true) ->
      igraph_clusters g = (IGRAPH_SUCCESS, 1) ->
      fst (igraph_cattribute_list g) = IGRAPH_SUCCESS ->
      forall top, graph top = g -> fst (_topology_checkGraphProperties top) = true).
Proof.
  intros Hopen Hread. split.
  - intros Hbad. split.
    + intros top <-. now apply checkGraphProperties_rejects.
    + unfold topology_new, _topology_loadGraph.
      change (graphPath (topology_g_new0 path)) with path. rewrite Hopen, Hread.
      destruct (negb (result =? IGRAPH_SUCCESS)).
      * cbn [negb]. eexists. split; reflexivity.
      * cbn [negb]. unfold _topology_checkGraph.
        match goal with
        | |- context [_topology_checkGraphProperties ?t] =>
            pose proof (checkGraphProperties_rejects t Hbad) as Hcheck;
            destruct (_topology_checkGraphProperties t) as [ok t'] eqn:Hprops
        end.
        simpl in Hcheck. subst ok. cbn [negb].
        exists t'. split; [reflexivity|].
        revert Hprops. unfold _topology_checkGraphProperties.
        repeat break_match; intros H; inversion H; subst; try reflexivity;
          unfold debug_names;
          repeat match goal with
          | |- context [fold_left _ ?l ?t0] =>
              let Hfold := fresh in
              assert (Hfold : forall fmt l t, graphPath (fold_left (fun top _ : _ => debug fmt top) l t) = graphPath t)
                by (intros fmt l0; induction l0; intros; simpl; [reflexivity | now rewrite IHl0]);
              rewrite !Hfold; clear Hfold
          end; reflexivity.
  - intros Hconn Hclusters Hattrs top <-. now apply checkGraphProperties_accepts.
Qed.

(** ** Attach *)

Lemma connect_unfold_candidates top a u ip cl ty dn up :
  topology_connect top a u ip cl ty dn up
  = let queue := connect_candidates top ip cl ty in
    let numCandidates := guint_wrap (Z.of_nat (length queue)) in
    if negb (0 <? numCandidates) then AssertionFailure "numCandidates > 0" else
    let vertexIndexPtr :=
      if 1 <? numCandidates then
        fst (pop_loop
               (Z.to_nat (guint_wrap (round (inject_Z numCandidates * u)%Q))) queue NULL)
      else fst (g_queue_pop_head queue) in
    if vertexIndexPtr =? NULL then AssertionFailure "vertexIndexPtr" else
    match memory_load vertexIndexPtr with
    | None => InvalidRead vertexIndexPtr
    | Some vertexIndex =>
        if negb (-1 <? vertexIndex) then
          AssertionFailure "vertexIndex > (igraph_integer_t) -1"
        else topology_connect top a u ip cl ty dn up
    end.
Proof.
  unfold topology_connect at 1, connect_candidates.
  destruct (_topology_iterateAllVertices (g_mutex_lock top) _topology_connectHelperHook
              (mkConnectAssist [] ty cl ip)) as [[n t] assist] eqn:Hiter.
  cbn [snd]. cbv zeta.
  destruct (negb (0 <? guint_wrap (Z.of_nat (length (candidates assist))))) eqn:Hsome;
    [reflexivity|].
  match goal with |- context [if ?x =? NULL then _ else _] => destruct (x =? NULL) eqn:Hnull end;
    [reflexivity|].
  match goal with |- context [memory_load ?x] => destruct (memory_load x) as [v|] eqn:Hload end;
    [|reflexivity].
  destruct (negb (-1 <? v)) eqn:Hneg; [reflexivity|].
  unfold topology_connect. rewrite Hiter. cbv zeta.
  rewrite Hsome, Hnull, Hload, Hneg. reflexivity.
Qed.

(** C6 (amended).  When the candidate queue of attach is empty, the
    assertion numCandidates > 0 fails: the call does not return, no error
    value reaches the caller and no mapping is recorded. *)
Theorem connect_without_candidates_aborts top a u ip cl ty dn up :
  connect_candidates top ip cl ty = [] ->
  topology_connect top a u ip cl ty dn up = AssertionFailure "numCandidates > 0".
Proof.
  intros Hnone. rewrite connect_unfold_candidates, Hnone. reflexivity.
Qed.

Lemma Qfloor_unit q : (0 <= q)%Q -> (q < 1)%Q -> Qfloor q = 0.
Proof.
  intros H0 H1.
  pose proof (Qfloor_le q) as Hle. pose proof (Qlt_floor q) as Hlt.
  assert (Hup : (inject_Z (Qfloor q) < inject_Z 1)%Q) by (eapply Qle_lt_trans; eassumption).
  assert (Hdown : (inject_Z 0 < inject_Z (Qfloor q + 1))%Q) by (eapply Qle_lt_trans; eassumption).
  rewrite <- Zlt_Qlt in Hup, Hdown. lia.
Qed.

(** C7 (the defect).  With N >= 2 candidates and a draw u with 0 <= u and
    2 * N * u < 1, round (N * u) is 0, the loop pops nothing, the pointer
    stays NULL and the assertion on it fails: no candidate is selected. *)
Theorem connect_small_draw_aborts top a u ip cl ty dn up :
  let N := Z.of_nat (length (connect_candidates top ip cl ty)) in
  2 <= N -> N < 2 ^ 32 ->
  (0 <= u)%Q -> (inject_Z (2 * N) * u < 1)%Q ->
  topology_connect top a u ip cl ty dn up = AssertionFailure "vertexIndexPtr".
Proof.
  intros N HN2 HN32 Hu0 Hu1. rewrite connect_unfold_candidates. cbv zeta. fold N.
  assert (Hwrap : guint_wrap N = N) by (unfold guint_wrap; apply Z.mod_small; lia).
  rewrite Hwrap.
  replace (0 <? N) with true by (symmetry; apply Z.ltb_lt; lia).
  replace (1 <? N) with true by (symmetry; apply Z.ltb_lt; lia).
  cbn [negb].
  assert (Hround : round (inject_Z N * u) = 0).
  { assert (HNq : (2 <= inject_Z N)%Q) by (rewrite (Zle_Qle 2 N) in HN2; exact HN2).
    rewrite inject_Z_mult in Hu1. change (inject_Z 2) with 2%Q in Hu1.
    unfold round.
    replace (Qle_bool 0 (inject_Z N * u)) with true
      by (symmetry; apply Qle_bool_iff; nra).
    apply Qfloor_unit; nra. }
  rewrite Hround. reflexivity.
Qed.

(** * Further properties of the code *)

(** ** The longest prefix match *)

Lemma GPOINTER_TO_UINT_nonneg data : 0 <= GPOINTER_TO_UINT data.
Proof. unfold GPOINTER_TO_UINT, guint_wrap. apply Z.mod_pos_bound. lia. Qed.

Lemma longest_prefix_loop_spec ip : forall items bestMatch bestIP,
  bestMatch = Z.land bestIP ip ->
  let best := longest_prefix_loop items ip bestMatch bestIP in
  bestMatch <= Z.land best ip
  /\ (best = bestIP \/ In best (map GPOINTER_TO_UINT items))
  /\ (forall data, In data items -> Z.land (GPOINTER_TO_UINT data) ip <= Z.land best ip)
  /\ (Z.land best ip = bestMatch -> best = bestIP).
Proof.
  induction items as [|data items IH]; intros bestMatch bestIP Hinv; simpl.
  - subst. repeat split; auto; try lia; try (now intros data []).
  - destruct (bestMatch <? Z.land (GPOINTER_TO_UINT data) ip) eqn:Hlt.
    + apply Z.ltb_lt in Hlt.
      destruct (IH (Z.land (GPOINTER_TO_UINT data) ip) (GPOINTER_TO_UINT data) eq_refl)
        as (Hge & Hmem & Hmax & Hkeep).
      split; [lia|]. split; [|split].
      * right. destruct Hmem as [-> | Hin]; [now left | now right].
      * intros x [<- | Hx]; [exact Hge | now apply Hmax].
      * intros Heq. lia.
    + apply Z.ltb_ge in Hlt.
      destruct (IH bestMatch bestIP Hinv) as (Hge & Hmem & Hmax & Hkeep).
      split; [exact Hge|]. split; [|split].
      * destruct Hmem as [-> | Hin]; [now left | right; now right].
      * intros x [<- | Hx]; [lia | now apply Hmax].
      * exact Hkeep.
Qed.

(** X1.  [_topology_getLongestPrefixMatch] fails its assertion on an empty
    list; on any other list it returns an address whose bitwise AND with
    [ip] is at least that of every listed address, and which is one of the
    listed addresses or 0. *)
Theorem longest_prefix_match_is_maximal (ipSet : list gpointer) (ip : Z) :
  (ipSet = [] /\ _topology_getLongestPrefixMatch ipSet ip = AssertionFailure "ipSet")
  \/ exists best,
       _topology_getLongestPrefixMatch ipSet ip = Returns best
       /\ (best = 0 \/ In best (map GPOINTER_TO_UINT ipSet))
       /\ forall data, In data ipSet ->
            Z.land (GPOINTER_TO_UINT data) ip <= Z.land best ip.
Proof.
  destruct ipSet as [|data items]; [left; auto|right].
  destruct (longest_prefix_loop_spec ip (data :: items) 0 0 eq_refl)
    as (_ & Hmem & Hmax & _).
  eexists. split; [reflexivity|]. split; assumption.
Qed.

(** X2.  When no listed address shares a set bit with [ip], the result is
    0, whether or not 0 is in the list: in that case nothing is matched. *)
Theorem longest_prefix_match_without_common_bit (ipSet : list gpointer) (ip : Z) :
  ipSet <> [] ->
  (forall data, In data ipSet -> Z.land (GPOINTER_TO_UINT data) ip = 0) ->
  _topology_getLongestPrefixMatch ipSet ip = Returns 0.
Proof.
  intros Hne Hzero. destruct ipSet as [|data items]; [congruence|].
  unfold _topology_getLongestPrefixMatch. f_equal.
  assert (Hloop : forall l, (forall x, In x l -> Z.land (GPOINTER_TO_UINT x) ip = 0) ->
                            longest_prefix_loop l ip 0 0 = 0).
  { induction l as [|x l IH]; intros Hl; simpl; [reflexivity|].
    rewrite (Hl x (or_introl eq_refl)). simpl. apply IH. intros y Hy. apply Hl. now right. }
  now apply Hloop.
Qed.

(** X3.  Ties keep the earlier address: a first address that matches some
    bit of [ip] is returned when no later address matches strictly more. *)
Theorem longest_prefix_match_keeps_the_first (data : gpointer) (items : list gpointer) (ip : Z) :
  0 < Z.land (GPOINTER_TO_UINT data) ip ->
  (forall x, In x items ->
     Z.land (GPOINTER_TO_UINT x) ip <= Z.land (GPOINTER_TO_UINT data) ip) ->
  _topology_getLongestPrefixMatch (data :: items) ip = Returns (GPOINTER_TO_UINT data).
Proof.
  intros Hpos Hle. unfold _topology_getLongestPrefixMatch. f_equal. simpl.
  replace (0 <? Z.land (GPOINTER_TO_UINT data) ip) with true
    by (symmetry; now apply Z.ltb_lt).
  destruct (longest_prefix_loop_spec ip items (Z.land (GPOINTER_TO_UINT data) ip)
              (GPOINTER_TO_UINT data) eq_refl) as (Hge & Hmem & Hmax & Hkeep).
  apply Hkeep.
  destruct Hmem as [-> | Hin]; [reflexivity|].
  apply in_map_iff in Hin as (x & Hx & Hxin).
  pose proof (Hle x Hxin). rewrite Hx in *. lia.
Qed.
(** ** Attach: the candidates and the draw *)

Lemma iterate_connect_hook_candidates vs : forall top q ty cl ip,
  iterate_hook _topology_connectHelperHook vs top (mkConnectAssist q ty cl ip)
  = (top,
     mkConnectAssist (q ++ map GINT_TO_POINTER (List.filter (is_poi (graph top)) vs)) ty cl ip).
Proof.
  unfold iterate_hook.
  induction vs as [|v vs IH]; intros top q ty cl ip; cbn [fold_left List.filter map].
  - now rewrite app_nil_r.
  - unfold _topology_connectHelperHook at 2. cbn [fst snd candidates typeHint geocodeHint ipHint].
    change (g_strstr_len (VAS (graph top) "id" v) "poi") with (is_poi (graph top) v).
    destruct (is_poi (graph top) v); cbn [fst snd map].
    + rewrite IH. unfold g_queue_push_tail. now rewrite <- app_assoc.
    + apply IH.
Qed.

Lemma connect_candidates_unfold top (ip cl ty : option string) :
  connect_candidates top ip cl ty
  = let '(result, vertices) := igraph_vit_create (graph top) in
    if result =? IGRAPH_SUCCESS
    then map GINT_TO_POINTER (List.filter (is_poi (graph top)) vertices)
    else [].
Proof.
  unfold connect_candidates, _topology_iterateAllVertices.
  change (graph (g_mutex_lock top)) with (graph top).
  destruct (igraph_vit_create (graph top)) as [result vs].
  destruct (result =? IGRAPH_SUCCESS); simpl; [|reflexivity].
  now rewrite iterate_connect_hook_candidates.
Qed.

(** X4.  The candidate queue of attach holds, in iteration order, the
    pointer-encoded indices of the vertices whose id contains "poi"; it is
    empty when the vertex iterator cannot be created; the three hints play no
    part in it. *)
Theorem connect_candidates_are_the_pois top (ip cl ty : option string) :
  connect_candidates top ip cl ty
  = let '(result, vertices) := igraph_vit_create (graph top) in
    if result =? IGRAPH_SUCCESS
    then map GINT_TO_POINTER (List.filter (is_poi (graph top)) vertices)
    else [].
Proof. apply connect_candidates_unfold. Qed.

(** X5.  [topology_connect] ignores its three hints: with the hints
    replaced by any others, the call ends the same way, with the same state
    and the same bandwidths. *)
Theorem connect_ignores_the_hints top a u (ip cl ty ip' cl' ty' : option string) dn up :
  topology_connect top a u ip cl ty dn up = topology_connect top a u ip' cl' ty' dn up.
Proof.
  unfold topology_connect, _topology_iterateAllVertices.
  change (graph (g_mutex_lock top)) with (graph top).
  destruct (igraph_vit_create (graph top)) as [result vs].
  destruct (negb (result =? IGRAPH_SUCCESS)); [reflexivity|].
  now rewrite !iterate_connect_hook_candidates.
Qed.

Lemma pop_loop_result (count : nat) (q : list gpointer) (vertexIndexPtr : gpointer) :
  fst (pop_loop count q vertexIndexPtr)
  = match count with
    | O => vertexIndexPtr
    | S k => nth k q NULL
    end
  /\ snd (pop_loop count q vertexIndexPtr) = skipn count q.
Proof.
  revert q vertexIndexPtr.
  induction count as [|k IH]; intros q p0; simpl; [auto|].
  destruct q as [|x q]; simpl.
  - destruct (IH [] NULL) as [Hfst Hsnd]. rewrite Hfst, Hsnd.
    split; [destruct k; [reflexivity | now destruct k] | now destruct k].
  - destruct (IH q x) as [Hfst Hsnd]. rewrite Hfst, Hsnd.
    split; [now destruct k | reflexivity].
Qed.

(** X6.  The pop loop of attach: after popping [count] > 0 items the
    pointer is the [count]-th item of the queue, NULL when the queue is
    shorter; with [count] = 0 the pointer is left as it was; the queue loses
    its first [count] items. *)
Theorem pop_loop_selects (count : nat) (q : list gpointer) (vertexIndexPtr : gpointer) :
  fst (pop_loop count q vertexIndexPtr)
  = match count with
    | O => vertexIndexPtr
    | S k => nth k q NULL
    end
  /\ snd (pop_loop count q vertexIndexPtr) = skipn count q.
Proof. apply pop_loop_result. Qed.


(** X8.  With exactly one candidate the random source is not consulted:
    whatever it would yield, the call ends the same way. *)
Theorem connect_single_candidate_ignores_the_draw top a (u u' : Q) ip cl ty dn up ptr :
  connect_candidates top ip cl ty = [ptr] ->
  topology_connect top a u ip cl ty dn up = topology_connect top a u' ip cl ty dn up.
Proof.
  intros Hone. unfold topology_connect.
  unfold connect_candidates in Hone.
  destruct (_topology_iterateAllVertices (g_mutex_lock top) _topology_connectHelperHook
              (mkConnectAssist [] ty cl ip)) as [[n t] assist].
  cbn [snd] in Hone. rewrite Hone. reflexivity.
Qed.

(** ** Attach, lookup and detach together *)

Lemma gint_wrap_small v : - 2 ^ 31 <= v < 2 ^ 31 -> gint_wrap v = v.
Proof.
  intros Hv. unfold gint_wrap.
  change (2 ^ 31) with 2147483648 in *. change (2 ^ 32) with 4294967296.
  rewrite Z.mod_small; lia.
Qed.

(** X9.  Round trip of the attachment table: after an attach at vertex v,
    0 <= v < 2^31, the lookup of the address returns v and logs nothing;
    the lookup of an address with another IP returns what it returned
    before. *)
Theorem attach_then_lookup top a v :
  0 <= v < 2 ^ 31 ->
  _topology_getConnectedVertexIndex (attach_at top a v) a = (v, attach_at top a v)
  /\ forall b,
       GUINT_TO_POINTER (address_toNetworkIP b) <> GUINT_TO_POINTER (address_toNetworkIP a) ->
       fst (_topology_getConnectedVertexIndex (attach_at top a v) b)
       = fst (_topology_getConnectedVertexIndex top b).
Proof.
  intros Hv. split.
  - apply getConnectedVertexIndex_attached.
    exists (GINT_TO_POINTER v). split; [apply lookup_insert_eq|].
    unfold GPOINTER_TO_INT, GINT_TO_POINTER.
    assert (Hrange : - 2 ^ 31 <= v < 2 ^ 31)
      by (change (2 ^ 31) with 2147483648 in *; lia).
    rewrite (gint_wrap_small v Hrange). rewrite (gint_wrap_small v Hrange).
    split; [reflexivity | lia].
  - intros b Hb. unfold _topology_getConnectedVertexIndex.
    change (virtualIP (attach_at top a v))
      with (<[GUINT_TO_POINTER (address_toNetworkIP a) := GINT_TO_POINTER v]> (virtualIP top)).
    rewrite lookup_insert_ne by congruence.
    now destruct (virtualIP top !! GUINT_TO_POINTER (address_toNetworkIP b)).
Qed.

(** X10.  Detaching an address that is not attached changes nothing at
    all: the state is the same record. *)
Theorem disconnect_unattached_is_identity top a :
  unattached top a -> topology_disconnect top a = top.
Proof.
  intros Hun. unfold topology_disconnect, set_virtualIP.
  rewrite delete_id by exact Hun. now destruct top.
Qed.

(** X11.  Attach then detach: for an address that was not attached, a
    returning [topology_connect] followed by [topology_disconnect] gives back
    the attachment table as it was, the path cache being untouched
    throughout. *)
Theorem connect_then_disconnect_restores_the_table top a u ip cl ty dn up top' bwDown bwUp :
  unattached top a ->
  topology_connect top a u ip cl ty dn up = Returns (top', bwDown, bwUp) ->
  virtualIP (topology_disconnect top' a) = virtualIP top
  /\ pathCache (topology_disconnect top' a) = pathCache top
  /\ unattached (topology_disconnect top' a) a.
Proof.
  intros Hun Hret.
  destruct (connect_returns_attach_at _ _ _ _ _ _ _ _ _ _ _ Hret) as (v & _ & ->).
  unfold topology_disconnect, attach_at, unattached in *. simpl.
  rewrite delete_insert_eq. rewrite delete_id by exact Hun.
  repeat split. exact Hun.
Qed.
(** ** Queries as operations on the state *)

Lemma getConnectedVertexIndex_log top a v top' :
  _topology_getConnectedVertexIndex top a = (v, top') ->
  exists l, log top' = (log top ++ l)%list.
Proof.
  unfold _topology_getConnectedVertexIndex.
  break_match; intros H; inversion H; subst.
  - exists []. now rewrite app_nil_r.
  - eexists. reflexivity.
Qed.

Lemma computePath_log top a b r top' :
  _topology_computePath top a b = (r, top') ->
  exists l, log top' = (log top ++ l)%list.
Proof.
  unfold _topology_computePath.
  destruct (_topology_getConnectedVertexIndex top a) as [sv t1] eqn:H1.
  destruct (_topology_getConnectedVertexIndex t1 b) as [dv t2] eqn:H2.
  apply getConnectedVertexIndex_log in H1 as [l1 H1].
  apply getConnectedVertexIndex_log in H2 as [l2 H2].
  repeat break_match; intros H; inversion H; subst; simpl;
    rewrite ?H2, ?H1, <- ?app_assoc; eexists; reflexivity.
Qed.

Lemma path_entry_frame top a b r top' :
  path_entry top a b = (r, top') ->
  static_fields top' = static_fields top
  /\ virtualIP top' = virtualIP top
  /\ (graphLock top = false -> graphLock top' = false)
  /\ (exists l, log top' = (log top ++ l)%list)
  /\ (forall c d, cache_key c d <> cache_key a b ->
        _topology_getPathFromCache top' c d = _topology_getPathFromCache top c d).
Proof.
  intros H. destruct (path_entry_cases top a b r top' H)
    as [(p & Hhit & -> & ->) | [(p & t & Hmiss & Hcompute & -> & ->) | (Hmiss & Hcompute & ->)]].
  - repeat split; auto. exists []. now rewrite app_nil_r.
  - pose proof (computePath_same_data _ _ _ _ _ Hcompute) as Hsame.
    pose proof Hsame as (Hp & Hg & Hw & Hv & Hc & Hcc & Hvc & Hec & Hic).
    split; [unfold static_fields; simpl; congruence|].
    split; [exact Hv|].
    split; [intros Hfree; exact (computePath_lock _ _ _ _ _ Hfree Hcompute)|].
    split; [exact (computePath_log _ _ _ _ _ Hcompute)|].
    intros c d Hk. rewrite cache_lookup_store, decide_False by exact Hk.
    apply (cache_lookup_same_data top t c d Hsame).
  - pose proof (computePath_same_data _ _ _ _ _ Hcompute) as Hsame.
    pose proof Hsame as (Hp & Hg & Hw & Hv & Hc & Hcc & Hvc & Hec & Hic).
    split; [unfold static_fields; congruence|].
    split; [exact Hv|].
    split; [intros Hfree; exact (computePath_lock _ _ _ _ _ Hfree Hcompute)|].
    split; [exact (computePath_log _ _ _ _ _ Hcompute)|].
    intros c d _. apply (cache_lookup_same_data top top' c d Hsame).
Qed.


(** X13.  Insert and lookup on the two-level cache: after a store for
    (a, b) a lookup returns the stored path exactly for the pairs filed under
    the same key and what it returned before for all others; a second store
    for the same pair replaces the first; the store touches neither the
    attachment table nor the log. *)
Theorem store_then_lookup top a b p :
  (forall c d,
     _topology_getPathFromCache (_topology_storePathInCache top a b p) c d
     = if decide (cache_key c d = cache_key a b) then Some p
       else _topology_getPathFromCache top c d)
  /\ (forall q,
        _topology_getPathFromCache
          (_topology_storePathInCache (_topology_storePathInCache top a b p) a b q) a b
        = Some q)
  /\ virtualIP (_topology_storePathInCache top a b p) = virtualIP top
  /\ log (_topology_storePathInCache top a b p) = log top.
Proof.
  split; [intros c d; apply cache_lookup_store|].
  split; [intros q; apply cache_lookup_store_same|].
  split; reflexivity.
Qed.

Lemma reachable_paths_in_range top0 cs top a b p t :
  pathCache top0 = None ->
  calls top0 cs = Returns top ->
  attributes_in_range (graph top) ->
  path_entry top a b = (Some p, t) ->
  in_range p.
Proof.
  intros Hempty Hcalls Hattr Hentry.
  destruct (calls_effect cs top0 top Hcalls) as (Hg & _ & _ & Hall).
  specialize (Hall (cache_all_empty _ top0 Hempty)).
  destruct (path_entry_cases top a b _ t Hentry)
    as [(q & Hhit & Hq & ->) | [(q & t' & _ & Hcompute & Hq & ->) | (_ & _ & Hq)]];
    [| |discriminate]; inversion Hq; subst q.
  - destruct (Hall a b p Hhit) as (t0 & s & d & t1 & Hg0 & Hc0).
    apply (computePath_in_range t0 s d p t1); [|exact Hc0]. now rewrite Hg0, <- Hg.
  - exact (computePath_in_range top a b p t' Hattr Hcompute).
Qed.

(** X14.  In every state reached by public calls from an empty cache on a
    graph whose attributes are in range, isRoutable is true exactly when the
    path entry is found, and false exactly when getLatency returns -1. *)
Theorem routable_iff_path_found top0 cs top a b :
  pathCache top0 = None ->
  calls top0 cs = Returns top ->
  attributes_in_range (graph top) ->
  (fst (topology_isRoutable top a b) = true
   <-> fst (fst (fst (_topology_getPathEntry top a b None None))) = true)
  /\ (fst (topology_isRoutable top a b) = false
      <-> fst (topology_getLatency top a b) = (-1)%Q).
Proof.
  intros Hempty Hcalls Hattr.
  rewrite isRoutable_path_entry, getPathEntry_path_entry, getLatency_path_entry.
  destruct (path_entry top a b) as [[p|] t] eqn:Hentry; cbn [fst].
  - destruct (reachable_paths_in_range _ _ _ _ _ _ _ Hempty Hcalls Hattr Hentry)
      as (Hlat & _).
    assert (Hroutable : Qlt_bool (-1) (path_getLatency p) = true).
    { unfold Qlt_bool. destruct (Qle_bool (path_getLatency p) (-1)) eqn:Hle; [|reflexivity].
      apply Qle_bool_iff in Hle. lra. }
    rewrite Hroutable. split; [tauto|].
    split; [discriminate|]. intros Heq. rewrite Heq in Hlat. lra.
  - split; [split; discriminate | tauto].
Qed.

(** X15.  isRoutable compares the latency with -1: a path that is found
    but whose latency is -1 or less (negative latency attributes are not
    rejected anywhere) is reported as not routable, although the path entry
    is found and getLatency returns that latency. *)
Theorem found_path_with_latency_below_minus_one_is_unroutable top a b p t :
  path_entry top a b = (Some p, t) ->
  (path_getLatency p <= -1)%Q ->
  fst (topology_isRoutable top a b) = false
  /\ fst (fst (fst (_topology_getPathEntry top a b None None))) = true
  /\ fst (topology_getLatency top a b) = path_getLatency p.
Proof.
  intros Hentry Hlat.
  rewrite isRoutable_path_entry, getPathEntry_path_entry, getLatency_path_entry, Hentry.
  cbn [fst]. repeat split.
  unfold Qlt_bool. apply Qle_bool_iff in Hlat. now rewrite Hlat.
Qed.

(** ** Invariants of the public interface *)

Lemma call_frame top c top' :
  call top c = Returns top' ->
  static_fields top' = static_fields top
  /\ (graphLock top = false -> graphLock top' = false)
  /\ exists l, log top' = (log top ++ l)%list.
Proof.
  assert (Hquery : forall a b,
    static_fields (snd (path_entry top a b)) = static_fields top
    /\ (graphLock top = false -> graphLock (snd (path_entry top a b)) = false)
    /\ exists l, log (snd (path_entry top a b)) = (log top ++ l)%list).
  { intros a b. destruct (path_entry top a b) as [r t] eqn:Hentry. cbn [snd].
    destruct (path_entry_frame top a b r t Hentry) as (Hs & _ & Hlock & Hl & _). auto. }
  destruct c as [a u ip cl ty dn up | a | a b | a b | a b]; simpl.
  - destruct (topology_connect top a u ip cl ty dn up) as [[[t bd] bu] | | ] eqn:Hc;
      try discriminate.
    intros H. inversion H; subst.
    destruct (connect_returns_attach_at _ _ _ _ _ _ _ _ _ _ _ Hc) as (v & _ & ->).
    repeat split. eexists. reflexivity.
  - intros H. inversion H; subst. repeat split; auto. exists []. simpl. now rewrite app_nil_r.
  - intros H. inversion H; subst. rewrite getLatency_state. apply Hquery.
  - intros H. inversion H; subst. rewrite getReliability_state. apply Hquery.
  - intros H. inversion H; subst. rewrite isRoutable_state. apply Hquery.
Qed.

(** X16.  Across any sequence of public calls that return, the topology is
    static: the graph path, the graph, the edge weights, the three counters
    and the connectivity flag keep their values; the graph lock, free at the
    start, is free at the end; the log is only extended. *)
Theorem calls_keep_the_topology_static cs : forall top top',
  calls top cs = Returns top' ->
  static_fields top' = static_fields top
  /\ (graphLock top = false -> graphLock top' = false)
  /\ exists l, log top' = (log top ++ l)%list.
Proof.
  induction cs as [|c cs IH]; intros top top'; simpl.
  - intros H. inversion H; subst. repeat split; auto. exists []. now rewrite app_nil_r.
  - destruct (call top c) as [t| |] eqn:Hcall; try discriminate.
    intros Hrest.
    destruct (call_frame top c t Hcall) as (Hs & Hlock & l1 & Hl1).
    destruct (IH t top' Hrest) as (Hs' & Hlock' & l2 & Hl2).
    split; [congruence|]. split; [auto|].
    exists (l1 ++ l2)%list. now rewrite Hl2, Hl1, app_assoc.
Qed.
(** ** Loading, stage by stage *)

Lemma static_fields_log_blind : log_blind static_fields.
Proof. intros lvl msg top. reflexivity. Qed.

Lemma debug_names_keeps {A : Type} (proj : Topology -> A) fmt names :
  log_blind proj -> forall top, proj (debug_names fmt names top) = proj top.
Proof.
  intros Hblind. unfold debug_names.
  induction names as [|n names IH]; intros top; simpl; [reflexivity|].
  rewrite IH. apply Hblind.
Qed.

Lemma iterate_hook_keeps {A U : Type} (proj : Topology -> A) (hook : NotifyFunc U) :
  (forall top index u, proj (fst (hook top index u)) = proj top) ->
  forall indices top u, proj (fst (iterate_hook hook indices top u)) = proj top.
Proof.
  intros Hhook. unfold iterate_hook.
  induction indices as [|i indices IH]; intros top u; simpl; [reflexivity|].
  destruct (hook top i u) as [t u'] eqn:Hstep. simpl.
  rewrite IH. specialize (Hhook top i u). now rewrite Hstep in Hhook.
Qed.

Lemma vertices_hook_keeps {A : Type} (proj : Topology -> A) :
  log_blind proj ->
  forall top index u, proj (fst (_topology_checkGraphVerticesHelperHook top index u)) = proj top.
Proof.
  intros Hblind top index u. unfold _topology_checkGraphVerticesHelperHook.
  destruct (g_strstr_len _ _); apply Hblind.
Qed.

Lemma edges_hook_keeps {A : Type} (proj : Topology -> A) :
  log_blind proj ->
  forall top index u, proj (fst (_topology_checkGraphEdgesHelperHook top index u)) = proj top.
Proof.
  intros Hblind top index u. unfold _topology_checkGraphEdgesHelperHook.
  destruct (igraph_edge _ _) as [rc ends].
  destruct (negb (rc =? IGRAPH_SUCCESS)); apply Hblind.
Qed.

Ltac strip proj :=
  repeat first
    [ rewrite (debug_names_keeps proj) by (intros ? ? ?; reflexivity)
    | progress change (proj (add_log ?l ?m ?x)) with (proj x)
    | progress change (proj (info ?m ?x)) with (proj x)
    | progress change (proj (warning ?m ?x)) with (proj x)
    | progress change (proj (critical ?m ?x)) with (proj x)
    | progress change (proj (message ?m ?x)) with (proj x)
    | progress change (proj (debug ?m ?x)) with (proj x) ].

Lemma loadGraph_ok top t :
  _topology_loadGraph top = (true, t) ->
  (exists file, fopen (graphPath top) = Some file
                /\ igraph_read_graph_graphml file = (IGRAPH_SUCCESS, graph t))
  /\ static_fields t
     = (graphPath top, graph t, edgeWeights top,
        (clusterCount top, vertexCount top, edgeCount top), isConnected top).
Proof.
  unfold _topology_loadGraph.
  destruct (fopen (graphPath top)) as [file|]; [|discriminate].
  destruct (igraph_read_graph_graphml file) as [result g] eqn:Hread.
  destruct (result =? IGRAPH_SUCCESS) eqn:Hrc; cbn [negb]; [|discriminate].
  apply Z.eqb_eq in Hrc. subst result.
  intros H. inversion H; subst. split; [|reflexivity]. now exists file.
Qed.

Lemma checkGraphProperties_ok top t :
  _topology_checkGraphProperties top = (true, t) ->
  igraph_is_connected (graph top) = (IGRAPH_SUCCESS, true)
  /\ igraph_clusters (graph top) = (IGRAPH_SUCCESS, clusterCount t)
  /\ clusterCount t <= 1
  /\ static_fields t
     = (graphPath top, graph top, edgeWeights top,
        (clusterCount t, vertexCount top, edgeCount top), true).
Proof.
  unfold _topology_checkGraphProperties.
  change (graph (info _ top)) with (graph top).
  destruct (igraph_is_connected (graph top)) as [rc connected].
  destruct (rc =? IGRAPH_SUCCESS) eqn:Hrc; cbn [negb]; [|discriminate].
  change (graph (set_isConnected connected _)) with (graph top).
  destruct (igraph_clusters (graph top)) as [rc' count].
  destruct (rc' =? IGRAPH_SUCCESS) eqn:Hrc'; cbn [negb]; [|discriminate].
  apply Z.eqb_eq in Hrc, Hrc'. subst rc rc'.
  cbn [isConnected clusterCount set_clusterCount set_isConnected].
  destruct connected; cbn [negb orb]; [|discriminate].
  destruct (1 <? count) eqn:Hcount; [discriminate|].
  apply Z.ltb_ge in Hcount.
  match goal with |- context [igraph_cattribute_list ?g] =>
    destruct (igraph_cattribute_list g) as [rc [[gnames vnames] enames]] end.
  destruct (negb (rc =? IGRAPH_SUCCESS)); [discriminate|].
  intros H. inversion H; subst. clear H.
  match goal with
  | |- context [clusterCount ?T] =>
      assert (Hcc : clusterCount T = count) by (strip clusterCount; reflexivity);
      assert (Hst : static_fields T
                    = (graphPath top, graph top, edgeWeights top,
                       (count, vertexCount top, edgeCount top), true))
        by (strip static_fields; reflexivity);
      rewrite Hcc, Hst
  end.
  auto.
Qed.

Lemma checkGraphVertices_result top :
  let '(result, vertices) := igraph_vit_create (graph top) in
  if result =? IGRAPH_SUCCESS then
    fst (_topology_checkGraphVertices top) = true
    /\ static_fields (snd (_topology_checkGraphVertices top))
       = (graphPath top, graph top, edgeWeights top,
          (clusterCount top, igraph_vcount (graph top), edgeCount top), isConnected top)
    /\ (igraph_vcount (graph top) <> Z.of_nat (length vertices) ->
        In (LogWarning, "igraph_vcount %f does not match iterator count %f")
           (log (snd (_topology_checkGraphVertices top))))
  else
    fst (_topology_checkGraphVertices top) = false
    /\ static_fields (snd (_topology_checkGraphVertices top)) = static_fields top.
Proof.
  unfold _topology_checkGraphVertices, _topology_iterateAllVertices.
  change (graph (info _ top)) with (graph top).
  destruct (igraph_vit_create (graph top)) as [result vs].
  destruct (result =? IGRAPH_SUCCESS); cbn [negb]; [|split; reflexivity].
  match goal with
  | |- context [iterate_hook ?h ?l ?t ?u] =>
      pose proof (iterate_hook_keeps static_fields h
                    (vertices_hook_keeps static_fields static_fields_log_blind) l t u) as Hit;
      destruct (iterate_hook h l t u) as [t1 u1]
  end.
  cbn [fst] in Hit. change (static_fields (info _ top)) with (static_fields top) in Hit.
  replace (Z.of_nat (length vs) <? 0) with false by (symmetry; apply Z.ltb_ge; lia).
  cbn [fst snd vertexCount set_vertexCount].
  assert (Hg : graph t1 = graph top) by (unfold static_fields in Hit; congruence).
  rewrite Hg.
  destruct (igraph_vcount (graph top) =? Z.of_nat (length vs)) eqn:Hcount; cbn [negb].
  - split; [reflexivity|]. split.
    + strip static_fields. unfold static_fields in *. simpl. congruence.
    + apply Z.eqb_eq in Hcount. congruence.
  - split; [reflexivity|]. split.
    + strip static_fields. unfold static_fields in *. simpl. congruence.
    + intros _. cbn [log info warning add_log set_vertexCount set_edgeCount].
      apply in_or_app. left. apply in_or_app. right. now left.
Qed.

Lemma checkGraphEdges_result top :
  let '(result, es) := igraph_eit_create (graph top) in
  if result =? IGRAPH_SUCCESS then
    fst (_topology_checkGraphEdges top) = true
    /\ static_fields (snd (_topology_checkGraphEdges top))
       = (graphPath top, graph top, edgeWeights top,
          (clusterCount top, vertexCount top, igraph_ecount (graph top)), isConnected top)
    /\ (igraph_ecount (graph top) <> Z.of_nat (length es) ->
        In (LogWarning, "igraph_vcount %f does not match iterator count %f")
           (log (snd (_topology_checkGraphEdges top))))
  else
    fst (_topology_checkGraphEdges top) = false
    /\ static_fields (snd (_topology_checkGraphEdges top)) = static_fields top.
Proof.
  unfold _topology_checkGraphEdges, _topology_iterateAllEdges.
  change (graph (info _ top)) with (graph top).
  destruct (igraph_eit_create (graph top)) as [result es].
  destruct (result =? IGRAPH_SUCCESS); cbn [negb]; [|split; reflexivity].
  match goal with
  | |- context [iterate_hook ?h ?l ?t ?u] =>
      pose proof (iterate_hook_keeps static_fields h
                    (edges_hook_keeps static_fields static_fields_log_blind) l t u) as Hit;
      destruct (iterate_hook h l t u) as [t1 u1]
  end.
  cbn [fst] in Hit. change (static_fields (info _ top)) with (static_fields top) in Hit.
  replace (Z.of_nat (length es) <? 0) with false by (symmetry; apply Z.ltb_ge; lia).
  cbn [fst snd edgeCount set_edgeCount].
  assert (Hg : graph t1 = graph top) by (unfold static_fields in Hit; congruence).
  rewrite Hg.
  destruct (igraph_ecount (graph top) =? Z.of_nat (length es)) eqn:Hcount; cbn [negb].
  - split; [reflexivity|]. split.
    + strip static_fields. unfold static_fields in *. simpl. congruence.
    + apply Z.eqb_eq in Hcount. congruence.
  - split; [reflexivity|]. split.
    + strip static_fields. unfold static_fields in *. simpl. congruence.
    + intros _. cbn [log info warning add_log set_vertexCount set_edgeCount].
      apply in_or_app. left. apply in_or_app. right. now left.
Qed.

(** X17.  The vertex check and the edge check fail only when the iterator
    cannot be created: each returns TRUE exactly when its igraph iterator is
    created, records the count igraph reports, and a difference between that
    count and the number of items iterated is only logged as a warning. *)
Theorem graph_checks_fail_only_without_iterator top :
  (fst (_topology_checkGraphVertices top) = true
   <-> fst (igraph_vit_create (graph top)) = IGRAPH_SUCCESS)
  /\ (fst (_topology_checkGraphEdges top) = true
      <-> fst (igraph_eit_create (graph top)) = IGRAPH_SUCCESS)
  /\ (fst (igraph_vit_create (graph top)) = IGRAPH_SUCCESS ->
      vertexCount (snd (_topology_checkGraphVertices top)) = igraph_vcount (graph top)
      /\ (igraph_vcount (graph top) <> Z.of_nat (length (snd (igraph_vit_create (graph top)))) ->
          In (LogWarning, "igraph_vcount %f does not match iterator count %f")
             (log (snd (_topology_checkGraphVertices top)))))
  /\ (fst (igraph_eit_create (graph top)) = IGRAPH_SUCCESS ->
      edgeCount (snd (_topology_checkGraphEdges top)) = igraph_ecount (graph top)
      /\ (igraph_ecount (graph top) <> Z.of_nat (length (snd (igraph_eit_create (graph top)))) ->
          In (LogWarning, "igraph_vcount %f does not match iterator count %f")
             (log (snd (_topology_checkGraphEdges top))))).
Proof.
  pose proof (checkGraphVertices_result top) as Hv.
  pose proof (checkGraphEdges_result top) as He.
  destruct (igraph_vit_create (graph top)) as [rv vs].
  destruct (igraph_eit_create (graph top)) as [re es].
  cbn [fst snd].
  split; [|split; [|split]].
  - destruct (rv =? IGRAPH_SUCCESS) eqn:Hrv; destruct Hv as [Hv1 _]; rewrite Hv1;
      [apply Z.eqb_eq in Hrv | apply Z.eqb_neq in Hrv]; split; intros; congruence.
  - destruct (re =? IGRAPH_SUCCESS) eqn:Hre; destruct He as [He1 _]; rewrite He1;
      [apply Z.eqb_eq in Hre | apply Z.eqb_neq in Hre]; split; intros; congruence.
  - intros Hok. apply Z.eqb_eq in Hok. rewrite Hok in Hv.
    destruct Hv as (_ & Hst & Hw). split; [|exact Hw].
    unfold static_fields in Hst. congruence.
  - intros Hok. apply Z.eqb_eq in Hok. rewrite Hok in He.
    destruct He as (_ & Hst & Hw). split; [|exact Hw].
    unfold static_fields in Hst. congruence.
Qed.
Lemma extractEdgeWeights_cases top :
  graphLock (snd (_topology_extractEdgeWeights top)) = false
  /\ (fst (_topology_extractEdgeWeights top) = true
      <-> igraph_vector_init 0 = IGRAPH_SUCCESS
          /\ fst (EANV (graph top) "latency") = IGRAPH_SUCCESS)
  /\ (igraph_vector_init 0 = IGRAPH_SUCCESS ->
      edgeWeights (snd (_topology_extractEdgeWeights top))
      = Some (snd (EANV (graph top) "latency")))
  /\ static_fields (snd (_topology_extractEdgeWeights top))
     = (graphPath top, graph top, edgeWeights (snd (_topology_extractEdgeWeights top)),
        (clusterCount top, vertexCount top, edgeCount top), isConnected top)
  /\ tables (snd (_topology_extractEdgeWeights top)) = tables top.
Proof.
  unfold _topology_extractEdgeWeights.
  destruct (igraph_vector_init 0 =? IGRAPH_SUCCESS) eqn:Hinit; cbn [negb].
  - apply Z.eqb_eq in Hinit.
    change (graph (set_edgeWeights _ (g_mutex_lock top))) with (graph top).
    destruct (EANV (graph top) "latency") as [rc weights].
    destruct (rc =? IGRAPH_SUCCESS) eqn:Hrc; cbn [negb fst snd];
      [apply Z.eqb_eq in Hrc | apply Z.eqb_neq in Hrc];
      (split; [reflexivity|]); (split; [split; [intros Ht; first [discriminate Ht | auto] | intros [_ ?]; congruence]|]);
      repeat split.
  - apply Z.eqb_neq in Hinit. cbn [fst snd].
    split; [reflexivity|]. split; [split; [discriminate | intros [? _]; congruence]|].
    split; [congruence|]. split; reflexivity.
Qed.

(** X18.  [_topology_extractEdgeWeights] succeeds exactly when both the
    vector initialisation and the read of the latency attribute succeed; it
    always leaves the graph lock free; once the vector is initialised the
    weights are the latency attribute of the edges, and the other static
    fields and the two tables are never touched. *)
Theorem extractEdgeWeights_result top :
  graphLock (snd (_topology_extractEdgeWeights top)) = false
  /\ (fst (_topology_extractEdgeWeights top) = true
      <-> igraph_vector_init 0 = IGRAPH_SUCCESS
          /\ fst (EANV (graph top) "latency") = IGRAPH_SUCCESS)
  /\ (igraph_vector_init 0 = IGRAPH_SUCCESS ->
      edgeWeights (snd (_topology_extractEdgeWeights top))
      = Some (snd (EANV (graph top) "latency")))
  /\ static_fields (snd (_topology_extractEdgeWeights top))
     = (graphPath top, graph top, edgeWeights (snd (_topology_extractEdgeWeights top)),
        (clusterCount top, vertexCount top, edgeCount top), isConnected top)
  /\ tables (snd (_topology_extractEdgeWeights top)) = tables top.
Proof. apply extractEdgeWeights_cases. Qed.

Lemma checkGraph_ok top t :
  _topology_checkGraph top = (true, t) ->
  igraph_is_connected (graph top) = (IGRAPH_SUCCESS, true)
  /\ igraph_clusters (graph top) = (IGRAPH_SUCCESS, clusterCount t)
  /\ clusterCount t <= 1
  /\ static_fields t
     = (graphPath top, graph top, edgeWeights top,
        (clusterCount t, igraph_vcount (graph top), igraph_ecount (graph top)), true).
Proof.
  unfold _topology_checkGraph.
  destruct (_topology_checkGraphProperties top) as [ok1 t1] eqn:H1.
  destruct ok1; cbn [negb]; [|discriminate].
  apply checkGraphProperties_ok in H1 as (Hconn & Hclusters & Hle & Hs1).
  pose proof (checkGraphVertices_result t1) as H2.
  destruct (_topology_checkGraphVertices t1) as [ok2 t2].
  destruct ok2; cbn [negb]; [|discriminate].
  destruct (igraph_vit_create (graph t1)) as [rv vs].
  destruct (rv =? IGRAPH_SUCCESS); cbn [fst snd] in H2; [|destruct H2; discriminate].
  destruct H2 as (_ & Hs2 & _).
  pose proof (checkGraphEdges_result t2) as H3.
  destruct (_topology_checkGraphEdges t2) as [ok3 t3].
  destruct ok3; cbn [negb]; [|discriminate].
  destruct (igraph_eit_create (graph t2)) as [re es].
  destruct (re =? IGRAPH_SUCCESS); cbn [fst snd] in H3; [|destruct H3; discriminate].
  destruct H3 as (_ & Hs3 & _).
  intros H. inversion H; subst t. clear H.
  change (static_fields (message ?m ?x)) with (static_fields x).
  change (clusterCount (message ?m ?x)) with (clusterCount x).
  unfold static_fields in *.
  injection Hs1 as Hp1 Hg1 Hw1 Hvc1 Hec1 Hic1.
  injection Hs2 as Hp2 Hg2 Hw2 Hcc2 Hvc2 Hec2 Hic2.
  injection Hs3 as Hp3 Hg3 Hw3 Hcc3 Hvc3 Hec3 Hic3.
  repeat split; congruence.
Qed.

(** X19.  What a successful [topology_new] returns: the object names the
    file, holds the graph read from it, was reported strongly connected with
    at most one cluster, carries the vertex and edge counts igraph reports
    and the latency attribute of the edges as weights, and starts with an
    empty attachment table, no path cache and a free graph lock. *)
Theorem topology_new_postcondition path top :
  topology_new path = NewTopology top ->
  graphPath top = path
  /\ (exists file, fopen path = Some file
                   /\ igraph_read_graph_graphml file = (IGRAPH_SUCCESS, graph top))
  /\ igraph_is_connected (graph top) = (IGRAPH_SUCCESS, true)
  /\ isConnected top = true
  /\ igraph_clusters (graph top) = (IGRAPH_SUCCESS, clusterCount top)
  /\ clusterCount top <= 1
  /\ vertexCount top = igraph_vcount (graph top)
  /\ edgeCount top = igraph_ecount (graph top)
  /\ EANV (graph top) "latency" = (IGRAPH_SUCCESS, snd (EANV (graph top) "latency"))
  /\ edgeWeights top = Some (snd (EANV (graph top) "latency"))
  /\ virtualIP top = ∅ /\ pathCache top = None /\ graphLock top = false.
Proof.
  intros Hnew. pose proof (topology_new_fresh path top Hnew) as (Hv & Hc & Hl).
  revert Hnew. unfold topology_new.
  destruct (_topology_loadGraph (topology_g_new0 path)) as [ok1 t1] eqn:H1.
  destruct ok1; cbn [negb]; [|discriminate].
  apply loadGraph_ok in H1 as ((file & Hopen & Hread) & Hs1).
  destruct (_topology_checkGraph t1) as [ok2 t2] eqn:H2.
  destruct ok2; cbn [negb]; [|discriminate].
  apply checkGraph_ok in H2 as (Hconn & Hclusters & Hle & Hs2).
  pose proof (extractEdgeWeights_cases t2) as (_ & Hiff & Hweights & Hs3 & _).
  destruct (_topology_extractEdgeWeights t2) as [ok3 t3].
  destruct ok3; cbn [negb]; [|discriminate].
  cbn [fst snd] in *.
  destruct Hiff as [Hiff _]. destruct (Hiff eq_refl) as [Hinit Heanv].
  specialize (Hweights Hinit).
  intros H. inversion H; subst t3. clear H.
  unfold static_fields in *. cbn [graphPath topology_g_new0] in Hs1.
  injection Hs1 as Hp1 _ _ _ _ _. injection Hs2 as Hp2 Hg2 _ Hvc2 Hec2 Hic2.
  injection Hs3 as Hp3 Hg3 Hcc3 Hvc3 Hec3 Hic3.
  assert (Hg : graph top = graph t1) by congruence.
  rewrite Hg.
  split; [congruence|]. split; [now exists file|].
  split; [exact Hconn|]. split; [congruence|].
  split; [congruence|]. split; [congruence|].
  split; [congruence|]. split; [congruence|].
  rewrite Hg2 in *.
  split; [destruct (EANV (graph t1) "latency"); cbn [fst snd] in *; congruence|].
  split; [exact Hweights|]. auto.
Qed.

(** X20.  Without a readable graph there is no topology: when the file
    cannot be opened, or igraph cannot parse it, [topology_new] returns NULL
    after logging the failure at critical level and running
    [topology_free]; none of the graph checks is started. *)
Theorem topology_new_without_a_graph path :
  (fopen path = None ->
   topology_new path
   = NewNULL
       [(LogCritical, "fopen returned NULL, problem opening graph file path '%s'");
        (LogMessage, "path cache cleared, spent %f seconds computing shortest paths")])
  /\ (forall file, fopen path = Some file ->
        fst (igraph_read_graph_graphml file) <> IGRAPH_SUCCESS ->
        topology_new path
        = NewNULL
            [(LogInfo, "reading graphml topology graph at '%s'");
             (LogCritical, "igraph_read_graph_graphml return non-success code %i");
             (LogMessage, "path cache cleared, spent %f seconds computing shortest paths")]).
Proof.
  split.
  - intros Hopen. unfold topology_new, _topology_loadGraph.
    change (graphPath (topology_g_new0 path)) with path. now rewrite Hopen.
  - intros file Hopen Hread. unfold topology_new, _topology_loadGraph.
    change (graphPath (topology_g_new0 path)) with path. rewrite Hopen.
    destruct (igraph_read_graph_graphml file) as [rc g]. cbn [fst] in Hread.
    apply Z.eqb_neq in Hread. now rewrite Hread.
Qed.

End Properties.

(** * The claims on the sample library *)

Import Sample.

Ltac attached_by ptr :=
  exists ptr; split; [vm_compute; reflexivity | split; [vm_compute; reflexivity | lia]].

(** Closed comparisons of rationals and integers, by evaluation. *)
Ltac decided :=
  vm_compute;
  first [reflexivity | discriminate | (let H := fresh in intro H; discriminate H)].

Ltac primitives_run :=
  repeat split; try (vm_compute; reflexivity); eexists; vm_compute; reflexivity.

Lemma find_edge_range es : forall from to index e,
  find_edge es from to index = Some e ->
  index <= e < index + Z.of_nat (length es).
Proof.
  induction es as [|x es IH]; intros from to index e; simpl; [discriminate|].
  destruct ((e_from x =? from) && (e_to x =? to)).
  - intros H. inversion H; subst. lia.
  - intros H. apply IH in H. lia.
Qed.

Lemma two_pois_attributes_in_range : attributes_in_range two_pois.
Proof.
  split.
  - intros u v e. cbn [igraph_get_eid sample extern]. unfold get_eid.
    destruct (find_edge (edges two_pois) u v 0) as [e'|] eqn:Hfind; [|discriminate].
    intros H. inversion H; subst e'. apply find_edge_range in Hfind. simpl in Hfind.
    assert (He : e = 0 \/ e = 1) by lia.
    destruct He as [-> | ->]; vm_compute; repeat split; easy.
  - intros v. cbn [VAN sample extern]. unfold van, nth_vertex.
    destruct (v <? 0); [vm_compute; split; easy|].
    destruct (Z.to_nat v) as [|[|[|n]]]; vm_compute; split; easy.
Qed.

(** The sample library on the scenarios of the specification. *)

Example two_pois_loads :
  topology_new "two_pois.graphml" = NewTopology (loaded "two_pois.graphml")
  /\ edgeWeights (loaded "two_pois.graphml") = Some [10%Q; 10%Q]
  /\ clusterCount (loaded "two_pois.graphml") = 1
  /\ isConnected (loaded "two_pois.graphml") = true.
Proof. split; [|split; [|split]]; vm_compute; reflexivity. Qed.

Example triangle_latency_via_B :
  igraph_get_shortest_paths_dijkstra (graph triangle_hosts) 0 2 (edgeWeights triangle_hosts)
  = (IGRAPH_SUCCESS, [0; 1; 2])
  /\ (fst (topology_getLatency triangle_hosts h1 h2) == 10)%Q.
Proof. split; vm_compute; reflexivity. Qed.

Example unknown_file_is_not_loaded :
  topology_new "missing.graphml"
  = NewNULL
      [(LogCritical, "fopen returned NULL, problem opening graph file path '%s'");
       (LogMessage, "path cache cleared, spent %f seconds computing shortest paths")].
Proof. vm_compute. reflexivity. Qed.

(** A cached path outlives a change of attachment: h1, queried against
    itself at vertex 0 and then attached at vertex 1, still gets 0.9 * 0.9,
    not the 0.8 * 0.8 of its new vertex. *)
Lemma stale_path_after_reattach :
  attached_at reattached h1 1
  /\ (fst (topology_getReliability reattached h1 h1) == 81 # 100)%Q
  /\ ~ (fst (topology_getReliability reattached h1 h1)
        == (1 - VAN (graph reattached) "packetloss" 1)
           * (1 - VAN (graph reattached) "packetloss" 1))%Q.
Proof.
  split; [attached_by 1|]. split; decided.
Qed.

Lemma computed_path_latency_and_reliability_witness :
  (fst (topology_getReliability two_hosts h1 h2) == 684 # 1000)%Q
  /\ (fst (topology_getLatency two_hosts h1 h2) == 10)%Q.
Proof.
  destruct (computed_path_latency_and_reliability two_hosts h1 h2 0 1)
    as (es & Hes & _ & Hlat & _ & Hrel).
  - attached_by 0.
  - attached_by 1.
  - vm_compute. reflexivity.
  - primitives_run.
  - vm_compute in Hes. injection Hes as <-. split.
    + apply (Hrel 0); vm_compute; reflexivity.
    + rewrite Hlat by (vm_compute; lia). vm_compute. reflexivity.
Defined.

(** C1, as stated, fails where the path has no edge: h1 queried against
    itself gets latency 1.0, while the sum over the (empty) list of edges of
    its path is 0. *)
Lemma same_vertex_latency_is_not_the_edge_sum :
  attached_at one_host h1 0
  /\ _topology_getPathFromCache one_host h1 h1 = None
  /\ primitives_succeed one_host 0 0
  /\ spec_path_edges (graph one_host)
       (snd (igraph_get_shortest_paths_dijkstra (graph one_host) 0 0 (edgeWeights one_host)))
     = Some []
  /\ fst (topology_getLatency one_host h1 h1) = 1%Q
  /\ ~ (fst (topology_getLatency one_host h1 h1) == spec_latency (graph one_host) [])%Q.
Proof.
  split; [attached_by 0|]. split; [vm_compute; reflexivity|].
  split; [primitives_run|]. split; [vm_compute; reflexivity|].
  split; [vm_compute; reflexivity|].
  vm_compute. discriminate.
Qed.

Lemma same_vertex_latency_and_reliability_witness :
  fst (topology_getLatency two_hosts h1 h1) = 1%Q
  /\ (0 < fst (topology_getReliability two_hosts h1 h1))%Q
  /\ (fst (topology_getReliability two_hosts h1 h1) <= 1)%Q.
Proof.
  destruct (same_vertex_latency_and_reliability two_hosts h1 h1 0)
    as (Hlat & _ & Hclosed & Hpositive).
  - attached_by 0.
  - attached_by 0.
  - vm_compute. reflexivity.
  - primitives_run.
  - vm_compute. lia.
  - split; [exact Hlat|]. split.
    + apply Hpositive; decided.
    + apply Hclosed; decided.
Defined.

(** C2, as stated, fails at a packetloss of 1, a value the data model
    allows: the reliability of h1 to itself is then 0, outside (0,1]. *)
Lemma total_loss_vertex_has_reliability_zero :
  attached_at lossy_host h1 0
  /\ (VAN (graph lossy_host) "packetloss" 0 == 1)%Q
  /\ fst (topology_getLatency lossy_host h1 h1) = 1%Q
  /\ (fst (topology_getReliability lossy_host h1 h1) == 0)%Q
  /\ ~ (0 < fst (topology_getReliability lossy_host h1 h1))%Q.
Proof.
  split; [attached_by 0|]. repeat split; decided.
Qed.

Lemma disconnected_graph_is_rejected_witness :
  exists partial,
    topology_new "one_way.graphml" = NewNULL (topology_free partial)
    /\ graphPath partial = "one_way.graphml".
Proof.
  destruct (disconnected_graph_is_rejected (ext := sample)
              "one_way.graphml" one_way IGRAPH_SUCCESS one_way)
    as [Hreject _].
  - reflexivity.
  - reflexivity.
  - apply Hreject. right. vm_compute. reflexivity.
Defined.

Lemma unattached_uncached_query_fails_witness :
  exists top' l,
    topology_getLatency one_host h1 h2 = ((-1)%Q, top')
    /\ topology_getReliability one_host h1 h2 = ((-1)%Q, top')
    /\ topology_isRoutable one_host h1 h2 = (false, top')
    /\ log top' = (log one_host ++ l)%list
    /\ In (LogWarning, "address %s is not connected to the topology") l
    /\ pathCache top' = pathCache one_host
    /\ virtualIP top' = virtualIP one_host.
Proof.
  apply (unattached_uncached_query_fails one_host h1 h2).
  - right. vm_compute. reflexivity.
  - vm_compute. reflexivity.
Defined.

(** C4, as stated, fails once a path is cached: after one query for
    (h1, h2) and the detach of h2, h2 is absent from the virtual-IP table, yet
    the same query returns the cached latency 10 and the pair is routable. *)
Lemma detached_address_is_served_from_the_cache :
  calls two_hosts [CallGetLatency h1 h2; CallDisconnect h2] = Returns after_detach
  /\ unattached after_detach h2
  /\ (fst (topology_getLatency after_detach h1 h2) == 10)%Q
  /\ ~ (fst (topology_getLatency after_detach h1 h2) == -1)%Q
  /\ ~ (fst (topology_getReliability after_detach h1 h2) == -1)%Q
  /\ fst (topology_isRoutable after_detach h1 h2) = true.
Proof.
  split; [vm_compute; reflexivity|]. repeat split; decided.
Qed.

Lemma cached_path_is_returned_unchanged_witness :
  exists p t top1,
    _topology_computePath two_hosts h1 h2 = (Some p, t)
    /\ top1 = _topology_storePathInCache t h1 h2 p
    /\ topology_getLatency two_hosts h1 h2 = (path_getLatency p, top1)
    /\ topology_getReliability two_hosts h1 h2 = (path_getReliability p, top1)
    /\ _topology_getPathFromCache top1 h1 h2 = Some p
    /\ forall cs topN,
         calls top1 cs = Returns topN ->
         _topology_getPathFromCache topN h1 h2 = Some p
         /\ topology_getLatency topN h1 h2 = (path_getLatency p, topN)
         /\ topology_getReliability topN h1 h2 = (path_getReliability p, topN).
Proof.
  apply (cached_path_is_returned_unchanged two_hosts h1 h2 0 1).
  - attached_by 0.
  - attached_by 1.
  - primitives_run.
  - vm_compute. reflexivity.
Defined.

Lemma connect_without_candidates_aborts_witness :
  topology_connect (loaded "no_poi.graphml") h1 (1 # 2) None None None true true
  = AssertionFailure "numCandidates > 0".
Proof.
  apply (connect_without_candidates_aborts (loaded "no_poi.graphml") h1 (1 # 2)).
  vm_compute. reflexivity.
Defined.

(** C6, as stated, fails: on a graph without any point of interest the
    candidate queue is empty and attach does not return at all, so no error
    value reaches the caller. *)
Lemma connect_without_poi_does_not_return :
  connect_candidates (loaded "no_poi.graphml") None None None = []
  /\ ~ exists r,
       topology_connect (loaded "no_poi.graphml") h1 (1 # 2) None None None true true
       = Returns r.
Proof.
  split; [vm_compute; reflexivity|].
  assert (Hfails :
    topology_connect (loaded "no_poi.graphml") h1 (1 # 2) None None None true true
    = AssertionFailure "numCandidates > 0") by (vm_compute; reflexivity).
  intros [r Hr]. rewrite Hfails in Hr. discriminate.
Qed.

Lemma connect_small_draw_aborts_witness :
  connect_candidates (loaded "two_pois.graphml") None None None = [0; 1]
  /\ topology_connect (loaded "two_pois.graphml") h1 (1 # 10) None None None true true
     = AssertionFailure "vertexIndexPtr".
Proof.
  split; [vm_compute; reflexivity|].
  apply (connect_small_draw_aborts (loaded "two_pois.graphml") h1 (1 # 10)).
  - vm_compute. discriminate.
  - vm_compute. reflexivity.
  - vm_compute. discriminate.
  - vm_compute. reflexivity.
Defined.

Lemma query_results_in_range_witness :
  (0 <= fst (topology_getLatency two_hosts_queried h1 h2))%Q
  /\ (0 <= fst (topology_getReliability two_hosts_queried h1 h2))%Q
  /\ (fst (topology_getReliability two_hosts_queried h1 h2) <= 1)%Q.
Proof.
  apply (query_results_in_range two_hosts
           [CallGetLatency h1 h2; CallGetReliability h2 h1] two_hosts_queried h1 h2 0 1).
  - vm_compute. reflexivity.
  - reflexivity.
  - replace (graph two_hosts_queried) with two_pois by (vm_compute; reflexivity).
    exact two_pois_attributes_in_range.
  - attached_by 0.
  - attached_by 1.
  - primitives_run.
Defined.

Lemma failed_primitive_query_returns_minus_one_witness :
  exists top' l lvl msg,
    topology_getLatency misattached h1 h2 = ((-1)%Q, top')
    /\ topology_getReliability misattached h1 h2 = ((-1)%Q, top')
    /\ log top' = (log misattached ++ l)%list /\ In (lvl, msg) l
    /\ (lvl = LogCritical \/ lvl = LogWarning)
    /\ graphLock top' = false
    /\ pathCache top' = pathCache misattached
    /\ _topology_getPathFromCache top' h1 h2 = None.
Proof.
  apply (failed_primitive_query_returns_minus_one misattached h1 h2 0 7).
  - attached_by 0.
  - attached_by 7.
  - vm_compute. reflexivity.
  - vm_compute. reflexivity.
  - intros (_ & _ & _ & Hdijkstra & _). vm_compute in Hdijkstra. discriminate.
Defined.

Lemma disconnect_removes_only_the_address_witness :
  unattached (topology_disconnect two_hosts h2) h2
  /\ attached_at (topology_disconnect two_hosts h2) h1 0
  /\ pathCache (topology_disconnect two_hosts h2) = pathCache two_hosts.
Proof.
  destruct (disconnect_removes_only_the_address two_hosts h2)
    as (_ & Hgone & Hothers & Hcache & _).
  split; [exact Hgone|]. split; [|exact Hcache].
  exists 0. split; [|split; [vm_compute; reflexivity | lia]].
  rewrite Hothers by (vm_compute; discriminate). vm_compute. reflexivity.
Defined.

(** * The further properties on the sample library *)

Lemma longest_prefix_match_is_maximal_witness :
  exists best,
    _topology_getLongestPrefixMatch [167772161; 3232235521] 167772162 = Returns best
    /\ Z.land (GPOINTER_TO_UINT 3232235521) 167772162 <= Z.land best 167772162.
Proof.
  destruct (longest_prefix_match_is_maximal [167772161; 3232235521] 167772162)
    as [[Hnil _] | (best & Hbest & _ & Hmax)]; [discriminate|].
  exists best. split; [exact Hbest|]. apply Hmax. right. now left.
Defined.

Lemma longest_prefix_match_without_common_bit_witness :
  _topology_getLongestPrefixMatch [1; 2] 4 = Returns 0.
Proof.
  apply longest_prefix_match_without_common_bit; [discriminate|].
  intros data [<- | [<- | []]]; reflexivity.
Defined.

(** The all-ones address is preferred to the address itself. *)
Lemma longest_prefix_match_keeps_the_first_witness :
  _topology_getLongestPrefixMatch [4294967295; 167772162] 167772162
  = Returns (GPOINTER_TO_UINT 4294967295).
Proof.
  apply longest_prefix_match_keeps_the_first.
  - vm_compute. reflexivity.
  - intros x [<- | []]. vm_compute. discriminate.
Defined.


Lemma connect_single_candidate_ignores_the_draw_witness :
  topology_connect (loaded "lossy.graphml") h1 (1 # 10) None None None true true
  = topology_connect (loaded "lossy.graphml") h1 (9 # 10) None None None true true.
Proof.
  apply (connect_single_candidate_ignores_the_draw
           (loaded "lossy.graphml") h1 (1 # 10) (9 # 10) None None None true true 0).
  vm_compute. reflexivity.
Defined.

Lemma attach_then_lookup_witness :
  _topology_getConnectedVertexIndex (attach_at one_host h2 1) h2 = (1, attach_at one_host h2 1).
Proof.
  apply (attach_then_lookup one_host h2 1). vm_compute. split; [discriminate | reflexivity].
Defined.

Lemma disconnect_unattached_is_identity_witness :
  topology_disconnect one_host h2 = one_host.
Proof.
  apply (disconnect_unattached_is_identity one_host h2). vm_compute. reflexivity.
Defined.

Lemma connect_then_disconnect_restores_the_table_witness :
  virtualIP (topology_disconnect (attach_at (loaded_readable "two_pois.graphml") h1 1) h1)
  = virtualIP (loaded_readable "two_pois.graphml").
Proof.
  destruct (connect_then_disconnect_restores_the_table (ext := readable)
              (loaded_readable "two_pois.graphml") h1 (9 # 10) None None None true true
              (attach_at (loaded_readable "two_pois.graphml") h1 1) (Some 512) (Some 512))
    as (Htable & _).
  - vm_compute. reflexivity.
  - vm_compute. reflexivity.
  - exact Htable.
Defined.

Lemma routable_iff_path_found_witness :
  fst (topology_isRoutable two_hosts_queried h1 h2) = true
  <-> fst (fst (fst (_topology_getPathEntry two_hosts_queried h1 h2 None None))) = true.
Proof.
  apply (routable_iff_path_found two_hosts
           [CallGetLatency h1 h2; CallGetReliability h2 h1] two_hosts_queried h1 h2).
  - vm_compute. reflexivity.
  - vm_compute. reflexivity.
  - replace (graph two_hosts_queried) with two_pois by (vm_compute; reflexivity).
    exact two_pois_attributes_in_range.
Defined.

Lemma found_path_with_latency_below_minus_one_is_unroutable_witness :
  fst (topology_isRoutable negative_hosts h1 h2) = false
  /\ fst (fst (fst (_topology_getPathEntry negative_hosts h1 h2 None None))) = true.
Proof.
  destruct (path_entry negative_hosts h1 h2) as [[p|] t] eqn:Hentry.
  - destruct (found_path_with_latency_below_minus_one_is_unroutable
                negative_hosts h1 h2 p t Hentry) as (Hroutable & Hfound & _).
    + vm_compute in Hentry. injection Hentry as <- _. vm_compute. discriminate.
    + split; assumption.
  - vm_compute in Hentry. discriminate.
Defined.

Lemma calls_keep_the_topology_static_witness :
  static_fields two_hosts_queried = static_fields two_hosts
  /\ graphLock two_hosts_queried = false.
Proof.
  destruct (calls_keep_the_topology_static
              [CallGetLatency h1 h2; CallGetReliability h2 h1] two_hosts two_hosts_queried)
    as (Hstatic & Hlock & _).
  - vm_compute. reflexivity.
  - split; [exact Hstatic|]. apply Hlock. vm_compute. reflexivity.
Defined.

Lemma topology_new_postcondition_witness :
  edgeWeights (loaded "two_pois.graphml") = Some [10%Q; 10%Q]
  /\ vertexCount (loaded "two_pois.graphml") = 2
  /\ virtualIP (loaded "two_pois.graphml") = ∅.
Proof.
  destruct (topology_new_postcondition "two_pois.graphml" (loaded "two_pois.graphml"))
    as (_ & _ & _ & _ & _ & _ & Hvc & _ & _ & Hw & Hv & _).
  - vm_compute. reflexivity.
  - split; [|split; [|exact Hv]].
    + rewrite Hw. vm_compute. reflexivity.
    + rewrite Hvc. vm_compute. reflexivity.
Defined.

Lemma topology_new_without_a_graph_witness :
  topology_new "missing.graphml"
  = NewNULL
      [(LogCritical, "fopen returned NULL, problem opening graph file path '%s'");
       (LogMessage, "path cache cleared, spent %f seconds computing shortest paths")].
Proof.
  destruct (topology_new_without_a_graph "missing.graphml") as [Hmissing _].
  apply Hmissing. reflexivity.
Defined.
